(** * Electric car engine sound emulator

    A shallow embedding of the React component of [src/App.js] and the
    properties of its throttle-to-sound-and-telemetry logic.

    Modelling conventions.
    - A JavaScript number is an exact rational ([Q]); the values produced by
      [Math.round] and the [tick] counter are integers ([Z]).  Rounding error
      of binary64 arithmetic and the 2^53 limit of exact integers are outside
      the model.
    - The component's hooks ([useState], [useRef]) are the fields of one
      record, [State]; a handler is a function on that record.
    - The Web Audio nodes are records of the parameters the component sets
      on them; the identity of a node is not part of the model.  The
      [currentTime] argument of the automation calls is always the present
      moment and is left out.
    - The browser has an [AudioContext] and constructing it succeeds; what
      the component does without one is in module [Browser].
    - One event is processed to completion (handler, re-render, effect)
      before the next one is looked at.  React may apply the updates of
      several wheel events in one render; module [Browser] has that case.  An exception in a handler leaves
      the component mounted with what the handler had already written; an
      exception in the effect unmounts it, as React does without an error
      boundary. *)

From Stdlib Require Import ZArith QArith Qround Qminmax List String Bool Lia.
Import ListNotations.

Set Implicit Arguments.

(** ** JavaScript primitives used by the component *)

Module JS.

(** [Math.round]: nearest integer, a tie goes up. *)
Definition Math_round (x : Q) : Z := Qfloor (x + (1 # 2)).

Definition Math_min (a b : Q) : Q := Qmin a b.
Definition Math_max (a b : Q) : Q := Qmax a b.

(** [a < b] on numbers. *)
Definition lt (a b : Q) : bool := negb (Qle_bool b a).

(** [Object.is] on numbers, the comparison React uses for state and
    dependencies. *)
Definition same_number (a b : Q) : bool := Qeq_bool a b.

(** [arr.slice(-n)]: the last [n] elements, the whole array when it is
    shorter. *)
Definition slice_last {A : Type} (n : nat) (arr : list A) : list A :=
  skipn (List.length arr - n) arr.

(** [obj[key]] on an object literal; [None] stands for [undefined].  The
    properties an object literal inherits from [Object.prototype] are not
    modelled: with such a key the component ends in a [TypeError] as well,
    raised by the audio backend for a frequency that is not finite. *)
Fixpoint get {A : Type} (obj : list (string * A)) (key : string) : option A :=
  match obj with
  | [] => None
  | (k, v) :: rest => if String.eqb k key then Some v else get rest key
  end.

(** Reading a property of [undefined] raises a [TypeError]. *)
Inductive Error : Type := TypeError.

End JS.

(** ** The part of the Web Audio API the component drives *)

Module WebAudio.

Inductive OscillatorType : Type := sine | square | sawtooth | triangle.

(** Automation calls on an [AudioParam], oldest first. *)
Inductive ParamEvent : Type :=
| setValueAtTime (value : Q)
| setTargetAtTime (target : Q) (timeConstant : Q).

Record OscillatorNode : Type := {
  osc_type : OscillatorType;
  osc_frequency : list ParamEvent;
  osc_connected : bool;
  osc_started : bool
}.

Record GainNode : Type := {
  gain_gain : list ParamEvent;
  gain_connected : bool
}.

Inductive AudioContext : Type := new_AudioContext.

(** A node as the context hands it out: default waveform, nothing
    scheduled, not connected. *)
Definition createOscillator : OscillatorNode :=
  {| osc_type := sine; osc_frequency := []; osc_connected := false;
     osc_started := false |}.

Definition createGain : GainNode :=
  {| gain_gain := []; gain_connected := false |}.

Definition set_type (w : OscillatorType) (o : OscillatorNode) : OscillatorNode :=
  {| osc_type := w; osc_frequency := osc_frequency o;
     osc_connected := osc_connected o; osc_started := osc_started o |}.

Definition frequency_call (e : ParamEvent) (o : OscillatorNode) : OscillatorNode :=
  {| osc_type := osc_type o; osc_frequency := osc_frequency o ++ [e];
     osc_connected := osc_connected o; osc_started := osc_started o |}.

Definition osc_connect (o : OscillatorNode) : OscillatorNode :=
  {| osc_type := osc_type o; osc_frequency := osc_frequency o;
     osc_connected := true; osc_started := osc_started o |}.

Definition osc_start (o : OscillatorNode) : OscillatorNode :=
  {| osc_type := osc_type o; osc_frequency := osc_frequency o;
     osc_connected := osc_connected o; osc_started := true |}.

Definition gain_call (e : ParamEvent) (g : GainNode) : GainNode :=
  {| gain_gain := gain_gain g ++ [e]; gain_connected := gain_connected g |}.

Definition gain_connect (g : GainNode) : GainNode :=
  {| gain_gain := gain_gain g; gain_connected := true |}.

End WebAudio.

(** ** The component *)

Module App.

Import JS WebAudio.

Record Preset : Type := {
  baseFreq : Q;
  maxFreq : Q;
  wave : OscillatorType;
  gain : Q
}.

Definition enginePresets : list (string * Preset) :=
  [ ("porsche"%string,
     {| baseFreq := 40; maxFreq := 2000; wave := sawtooth; gain := 5 # 100 |});
    ("ferrari"%string,
     {| baseFreq := 80; maxFreq := 4000; wave := square; gain := 5 # 100 |});
    ("mustang"%string,
     {| baseFreq := 50; maxFreq := 2500; wave := triangle; gain := 7 # 100 |}) ].

(** One point of the chart. *)
Record Sample : Type := {
  index : Z;
  rpm : Z;
  speed : Z
}.

(** The three refs and the six state variables of [App]. *)
Record State : Type := {
  audioCtxRef : option AudioContext;
  oscillatorRef : option OscillatorNode;
  gainRef : option GainNode;
  isRunning : bool;
  frequency : Z;
  throttle : Q;
  data : list Sample;
  tick : Z;
  engineType : string
}.

(** The values given to [useRef] and [useState]. *)
Definition initial : State :=
  {| audioCtxRef := None; oscillatorRef := None; gainRef := None;
     isRunning := false; frequency := 40; throttle := 0; data := [];
     tick := 0; engineType := "porsche" |}.

(** *** State setters *)

Definition setIsRunning (b : bool) (s : State) : State :=
  {| audioCtxRef := audioCtxRef s; oscillatorRef := oscillatorRef s;
     gainRef := gainRef s; isRunning := b; frequency := frequency s;
     throttle := throttle s; data := data s; tick := tick s;
     engineType := engineType s |}.

Definition setFrequency (f : Z) (s : State) : State :=
  {| audioCtxRef := audioCtxRef s; oscillatorRef := oscillatorRef s;
     gainRef := gainRef s; isRunning := isRunning s; frequency := f;
     throttle := throttle s; data := data s; tick := tick s;
     engineType := engineType s |}.

Definition setThrottle (t : Q) (s : State) : State :=
  {| audioCtxRef := audioCtxRef s; oscillatorRef := oscillatorRef s;
     gainRef := gainRef s; isRunning := isRunning s; frequency := frequency s;
     throttle := t; data := data s; tick := tick s;
     engineType := engineType s |}.

Definition setData (f : list Sample -> list Sample) (s : State) : State :=
  {| audioCtxRef := audioCtxRef s; oscillatorRef := oscillatorRef s;
     gainRef := gainRef s; isRunning := isRunning s; frequency := frequency s;
     throttle := throttle s; data := f (data s); tick := tick s;
     engineType := engineType s |}.

Definition setTick (f : Z -> Z) (s : State) : State :=
  {| audioCtxRef := audioCtxRef s; oscillatorRef := oscillatorRef s;
     gainRef := gainRef s; isRunning := isRunning s; frequency := frequency s;
     throttle := throttle s; data := data s; tick := f (tick s);
     engineType := engineType s |}.

Definition setEngineType (name : string) (s : State) : State :=
  {| audioCtxRef := audioCtxRef s; oscillatorRef := oscillatorRef s;
     gainRef := gainRef s; isRunning := isRunning s; frequency := frequency s;
     throttle := throttle s; data := data s; tick := tick s;
     engineType := name |}.

Definition set_refs (c : option AudioContext) (o : option OscillatorNode)
    (g : option GainNode) (s : State) : State :=
  {| audioCtxRef := c; oscillatorRef := o; gainRef := g;
     isRunning := isRunning s; frequency := frequency s;
     throttle := throttle s; data := data s; tick := tick s;
     engineType := engineType s |}.

Definition set_oscillator (o : OscillatorNode) (s : State) : State :=
  set_refs (audioCtxRef s) (Some o) (gainRef s) s.

(** *** The recomputation effect *)

(** How the processing of one event ends: all updates committed; the handler
    raised and the component stays as the handler left it; or the effect
    raised, which takes the component off the page. *)
Inductive Outcome : Type :=
| Done (s : State)
| Threw (e : Error) (s : State)
| Unmounted (e : Error).

Definition newFreq (preset : Preset) (t : Q) : Q :=
  baseFreq preset + (maxFreq preset - baseFreq preset) * t.

(** The condition of the effect's [if]. *)
Definition guard (s : State) : bool :=
  isRunning s &&
  match oscillatorRef s with Some _ => true | None => false end &&
  match gainRef s with Some _ => true | None => false end.

(** The sample the effect builds, with the [tick] of the render it runs
    in. *)
Definition sample (preset : Preset) (s : State) : Sample :=
  {| index := tick s;
     rpm := Math_round (newFreq preset (throttle s));
     speed := Math_round (newFreq preset (throttle s) / 100) |}.

(** The body of the [if], for the preset that was looked up. *)
Definition recompute (preset : Preset) (osc : OscillatorNode) (s : State) : State :=
  let f := newFreq preset (throttle s) in
  let s1 := set_oscillator (frequency_call (setTargetAtTime f (5 # 100)) osc) s in
  let s2 := setFrequency (Math_round f) s1 in
  let s3 := setData (fun prev => slice_last 19 prev ++ [sample preset s]) s2 in
  setTick (fun t => (t + 1)%Z) s3.

Definition useEffect_recompute (s : State) : Outcome :=
  if guard s then
    match oscillatorRef s, get enginePresets (engineType s) with
    | Some osc, Some preset => Done (recompute preset osc s)
    | _, _ => Unmounted TypeError
    end
  else Done s.

(** The dependency array [[throttle, isRunning, engineType]]. *)
Definition deps_changed (old new : State) : bool :=
  negb (same_number (throttle old) (throttle new))
  || negb (Bool.eqb (isRunning old) (isRunning new))
  || negb (String.eqb (engineType old) (engineType new)).

(** *** Event handlers *)

Inductive Handled : Type :=
| Returns (s : State)
| Throws (e : Error) (s : State).

Definition startAudio (s : State) : Handled :=
  if negb (isRunning s) then
    let s1 := set_refs (Some new_AudioContext) (Some createOscillator)
                       (Some createGain) s in
    match get enginePresets (engineType s) with
    | None => Throws TypeError s1
    | Some preset =>
        let osc :=
          osc_start
            (osc_connect
               (frequency_call (setValueAtTime (baseFreq preset))
                  (set_type (wave preset) createOscillator))) in
        let g := gain_call (setValueAtTime (gain preset)) (gain_connect createGain) in
        Returns (setIsRunning true
                   (set_refs (Some new_AudioContext) (Some osc) (Some g) s))
    end
  else Returns s.

Definition handleScroll (deltaY : Q) (s : State) : State :=
  let newThrottle := throttle s + (if lt deltaY 0 then 2 # 100 else - (2 # 100)) in
  setThrottle (Math_min 1 (Math_max 0 newThrottle)) s.

(** [onChange] of the range input; [value] is [parseFloat(e.target.value)]. *)
Definition onChange_throttle (value : Q) (s : State) : State :=
  setThrottle value s.

(** [onChange] of the engine radio buttons. *)
Definition onChange_engine (value : string) (s : State) : State :=
  setEngineType value s.

(** *** Events and their processing *)

Inductive Event : Type :=
| Start
| Wheel (deltaY : Q)
| Slider (value : Q)
| Radio (value : string).

Definition handle (ev : Event) (s : State) : Handled :=
  match ev with
  | Start => startAudio s
  | Wheel deltaY => Returns (handleScroll deltaY s)
  | Slider value => Returns (onChange_throttle value s)
  | Radio value => Returns (onChange_engine value s)
  end.

(** Handler, then the effect when a dependency differs from the previous
    render.  An exception in a handler leaves the component mounted. *)
Definition dispatch (ev : Event) (s : State) : Outcome :=
  match handle ev s with
  | Throws e s1 => Threw e s1
  | Returns s1 =>
      if deps_changed s s1 then useEffect_recompute s1 else Done s1
  end.

(** The state the next event finds, if the component is still there. *)
Definition mounted (o : Outcome) : option State :=
  match o with
  | Done s | Threw _ s => Some s
  | Unmounted _ => None
  end.

Fixpoint run (evs : list Event) (s : State) : option State :=
  match evs with
  | [] => Some s
  | ev :: rest =>
      match mounted (dispatch ev s) with
      | Some s1 => run rest s1
      | None => None
      end
  end.

(** *** Vocabulary for statements about runs *)

(** The sample that processing [ev] in [s] adds to the chart: there is one
    exactly when the handler returns, a dependency changed and the
    effect's [if] is taken. *)
Definition recomputation (ev : Event) (s : State) : option Sample :=
  match handle ev s with
  | Returns s1 =>
      if deps_changed s s1 && guard s1 then
        match oscillatorRef s1, get enginePresets (engineType s1) with
        | Some _, Some preset => Some (sample preset s1)
        | _, _ => None
        end
      else None
  | Throws _ _ => None
  end.

(** Every sample the recomputations of a run have added, oldest first,
    evicted ones included. *)
Fixpoint appended (evs : list Event) (s : State) : list Sample :=
  match evs with
  | [] => []
  | ev :: rest =>
      match mounted (dispatch ev s) with
      | Some s1 =>
          match recomputation ev s with
          | Some smp => smp :: appended rest s1
          | None => appended rest s1
          end
      | None => []
      end
  end.

(** The readout shows the rpm of the newest point of the chart, if there
    is one. *)
Definition readout_agrees (s : State) : Prop :=
  forall older smp, data s = older ++ [smp] -> rpm smp = frequency s.

(** The range control (min 0, max 1) only yields values of the unit
    interval. *)
Definition slider_in_range (ev : Event) : Prop :=
  match ev with
  | Slider value => 0 <= value <= 1
  | _ => True
  end.

(** *** A running component, for examples *)

Definition porsche : Preset :=
  {| baseFreq := 40; maxFreq := 2000; wave := sawtooth; gain := 5 # 100 |}.

Definition ferrari : Preset :=
  {| baseFreq := 80; maxFreq := 4000; wave := square; gain := 5 # 100 |}.

Definition mustang : Preset :=
  {| baseFreq := 50; maxFreq := 2500; wave := triangle; gain := 7 # 100 |}.

Definition started_oscillator : OscillatorNode :=
  {| osc_type := sawtooth;
     osc_frequency := [setValueAtTime 40; setTargetAtTime 40 (5 # 100)];
     osc_connected := true; osc_started := true |}.

(** The state one click on Start leaves behind. *)
Definition started : State :=
  {| audioCtxRef := Some new_AudioContext;
     oscillatorRef := Some started_oscillator;
     gainRef :=
       Some {| gain_gain := [setValueAtTime (5 # 100)]; gain_connected := true |};
     isRunning := true; frequency := 40; throttle := 0;
     data := [{| index := 0; rpm := 40; speed := 0 |}];
     tick := 1; engineType := "porsche" |}.

(** Start, then twenty-four wheel ticks upwards: twenty-five
    recomputations. *)
Definition twenty_five : list Event := Start :: repeat (Wheel (-1)) 24.

Definition after_twenty_five : State :=
  Eval vm_compute in
    match run twenty_five initial with Some s => s | None => initial end.

End App.

(** ** What the component renders *)

Module Render.

Import JS WebAudio App.

(** [x.toFixed(0)], as the integer whose digits it prints: the sign is
    taken off, the magnitude rounded to the nearest integer with a tie
    going up, the sign put back.  (Before a negative number that rounds to
    zero the string has a minus sign, which the integer does not show.) *)
Definition toFixed0 (x : Q) : Z :=
  if lt x 0 then (- Qfloor (- x + (1 # 2)))%Z else Qfloor (x + (1 # 2)).

(** The values the JSX computes from the state. *)
Record View : Type := {
  porsche_checked : bool;
  ferrari_checked : bool;
  mustang_checked : bool;
  slider_value : Q;
  throttle_percent : Z;
  rpm_readout : Z;
  speed_readout : Z;
  car_x : Q;
  chart : list Sample
}.

Definition render (s : State) : View :=
  {| porsche_checked := String.eqb (engineType s) "porsche";
     ferrari_checked := String.eqb (engineType s) "ferrari";
     mustang_checked := String.eqb (engineType s) "mustang";
     slider_value := throttle s;
     throttle_percent := toFixed0 (throttle s * 100);
     rpm_readout := frequency s;
     speed_readout := Math_round (inject_Z (frequency s) / 100);
     car_x := throttle s * 500;
     chart := data s |}.

(** The events the controls of the page can produce: the range input
    stays within its bounds, a radio button carries one of the three
    values. *)
Definition ui_event (ev : Event) : Prop :=
  match ev with
  | Slider value => 0 <= value <= 1
  | Radio value =>
      value = "porsche"%string \/ value = "ferrari"%string \/
      value = "mustang"%string
  | Start | Wheel _ => True
  end.

(** The audio graph as [startAudio] leaves it. *)
Definition graph_complete (s : State) : Prop :=
  exists osc g,
    audioCtxRef s = Some new_AudioContext /\
    oscillatorRef s = Some osc /\ gainRef s = Some g /\
    osc_connected osc = true /\ osc_started osc = true /\
    gain_connected g = true.

(** A running component has the whole graph. *)
Definition running_complete (s : State) : Prop :=
  isRunning s = true -> graph_complete s.

(** The oscillator of a running component that was started with preset
    [p], against the samples [hist] added since: the waveform of [p], the
    base of [p] set first, then one frequency target per sample, whose
    rounding is the sample's rpm. *)
Definition glides_of (p : Preset) (s : State) (hist : list Sample) : Prop :=
  exists osc targets,
    isRunning s = true /\
    oscillatorRef s = Some osc /\
    osc_type osc = wave p /\
    osc_frequency osc =
      setValueAtTime (baseFreq p)
      :: map (fun f => setTargetAtTime f (5 # 100)) targets /\
    map Math_round targets = map rpm hist.

(** The same for any component, [hist] being all samples added so far: no
    sample before it runs, and then the above for a preset of the table. *)
Definition in_step (s : State) (hist : list Sample) : Prop :=
  (isRunning s = false -> hist = []) /\
  (isRunning s = true ->
   exists name p, get enginePresets name = Some p /\ glides_of p s hist).

End Render.

(** ** The browser *)

Module Browser.

Import JS WebAudio App.

(** [startAudio] in a browser that may lack both [window.AudioContext] and
    [window.webkitAudioContext]: the [new] of its first statement then
    raises a [TypeError] before anything is assigned. *)
Definition startAudio_in (has_AudioContext : bool) (s : State) : Handled :=
  if negb (isRunning s) then
    if has_AudioContext then startAudio s else Throws TypeError s
  else Returns s.

Definition handle_in (has_AudioContext : bool) (ev : Event) (s : State)
    : Handled :=
  match ev with
  | Start => startAudio_in has_AudioContext s
  | Wheel _ | Slider _ | Radio _ => handle ev s
  end.

Definition dispatch_in (has_AudioContext : bool) (ev : Event) (s : State)
    : Outcome :=
  match handle_in has_AudioContext ev s with
  | Throws e s1 => Threw e s1
  | Returns s1 =>
      if deps_changed s s1 then useEffect_recompute s1 else Done s1
  end.

Fixpoint run_in (has_AudioContext : bool) (evs : list Event) (s : State)
    : option State :=
  match evs with
  | [] => Some s
  | ev :: rest =>
      match mounted (dispatch_in has_AudioContext ev s) with
      | Some s1 => run_in has_AudioContext rest s1
      | None => None
      end
  end.

(** Wheel events that arrive before React renders again: their updater
    functions are applied one after the other to the pending throttle. *)
Definition wheel_batch (deltas : list Q) (s : State) : State :=
  fold_left (fun st deltaY => handleScroll deltaY st) deltas s.

(** Such a batch, its one render and the effect after it. *)
Definition dispatch_wheels (deltas : list Q) (s : State) : Outcome :=
  if deps_changed s (wheel_batch deltas s)
  then useEffect_recompute (wheel_batch deltas s)
  else Done (wheel_batch deltas s).

End Browser.

(** * Properties *)

Import JS WebAudio App.

(** ** Facts about [slice_last] *)

Module SliceFacts.

Section Slices.

Context {A : Type}.
Implicit Types (l m : list A) (n k : nat).

Lemma slice_last_length n l :
  List.length (slice_last n l) = Nat.min n (List.length l).
Proof. unfold slice_last. rewrite length_skipn. lia. Qed.

Lemma slice_last_short n l :
  (List.length l <= n)%nat -> slice_last n l = l.
Proof.
  intros H. unfold slice_last.
  replace (List.length l - n)%nat with 0%nat by lia. reflexivity.
Qed.

(** A slice of a concatenation is taken from the right part first. *)
Lemma slice_last_app n l m :
  slice_last n (l ++ m) = slice_last (n - List.length m) l ++ slice_last n m.
Proof.
  unfold slice_last. rewrite length_app, skipn_app.
  destruct (Nat.le_gt_cases (List.length m) n) as [Hle | Hgt].
  - f_equal; f_equal; lia.
  - rewrite (skipn_all2 l) by lia.
    replace (List.length l - (n - List.length m))%nat
      with (List.length l) by lia.
    rewrite skipn_all. f_equal. f_equal. lia.
Qed.

Lemma slice_last_slice_last n k l :
  (n <= k)%nat -> slice_last n (slice_last k l) = slice_last n l.
Proof.
  intros H. unfold slice_last at 1. rewrite slice_last_length.
  unfold slice_last. rewrite skipn_skipn. f_equal. lia.
Qed.

(** What the effect does to the chart, seen from the full history. *)
Lemma slice_last_push l x :
  slice_last 19 l ++ [x] = slice_last 20 (l ++ [x]).
Proof. rewrite slice_last_app. reflexivity. Qed.

Lemma slice_last_push_history l hist x :
  l = slice_last 20 hist ->
  slice_last 19 l ++ [x] = slice_last 20 (hist ++ [x]).
Proof.
  intros ->. rewrite slice_last_slice_last by lia.
  apply slice_last_push.
Qed.

Lemma slice_last_split n l :
  l = firstn (List.length l - n) l ++ slice_last n l.
Proof. unfold slice_last. symmetry. apply firstn_skipn. Qed.

End Slices.

End SliceFacts.

(** ** One event at a time *)

Module StepFacts.

(** The handlers touch neither the chart, nor the counter, nor the
    readout. *)
Lemma handle_frame ev s :
  let s1 := match handle ev s with Returns s1 | Throws _ s1 => s1 end in
  data s1 = data s /\ tick s1 = tick s /\ frequency s1 = frequency s.
Proof.
  destruct ev; [| cbn; auto ..].
  unfold handle, startAudio.
  destruct (isRunning s); cbn [negb]; [cbn; auto |].
  destruct (get enginePresets (engineType s)); cbn; auto.
Qed.

Lemma handle_returns_frame ev s s1 :
  handle ev s = Returns s1 ->
  data s1 = data s /\ tick s1 = tick s /\ frequency s1 = frequency s.
Proof. intros H. generalize (handle_frame ev s). rewrite H. auto. Qed.

Lemma handle_throws_frame ev s e s1 :
  handle ev s = Throws e s1 ->
  data s1 = data s /\ tick s1 = tick s /\ frequency s1 = frequency s.
Proof. intros H. generalize (handle_frame ev s). rewrite H. auto. Qed.

(** What one processed event does to chart, counter and readout. *)
Lemma dispatch_telemetry ev s s1 :
  mounted (dispatch ev s) = Some s1 ->
  match recomputation ev s with
  | Some smp =>
      data s1 = slice_last 19 (data s) ++ [smp] /\
      tick s1 = (tick s + 1)%Z /\
      index smp = tick s /\
      frequency s1 = rpm smp
  | None =>
      data s1 = data s /\ tick s1 = tick s /\ frequency s1 = frequency s
  end.
Proof.
  unfold dispatch, recomputation, useEffect_recompute.
  destruct (handle ev s) as [s2 | e s2] eqn:Hh.
  - destruct (handle_returns_frame _ _ Hh) as (Hd & Ht & Hf).
    destruct (deps_changed s s2); cbn [andb].
    + destruct (guard s2).
      * destruct (oscillatorRef s2) as [osc |]; [| discriminate].
        destruct (get enginePresets (engineType s2)) as [p |]; [| discriminate].
        cbn. intros [= <-]. cbn. rewrite Hd, Ht. auto.
      * cbn. intros [= <-]. auto.
    + cbn. intros [= <-]. auto.
  - cbn. intros [= <-]. apply (handle_throws_frame _ _ Hh).
Qed.

(** No handler moves the throttle out of the unit interval when the
    slider respects its range. *)
Lemma handleScroll_in_range deltaY s :
  0 <= throttle (handleScroll deltaY s) <= 1.
Proof.
  unfold handleScroll, Math_min, Math_max. cbn. split.
  - apply Q.min_glb; [discriminate | apply Q.le_max_l].
  - apply Q.le_min_l.
Qed.

End StepFacts.

(** ** Whole runs *)

Module RunFacts.

Import SliceFacts StepFacts.

(** Unfolding [run] and [appended] by one processed event. *)
Ltac step_run ev s0 H s1 Hm :=
  cbn [run appended] in H |- *;
  destruct (mounted (dispatch ev s0)) as [s1 |] eqn:Hm; [| discriminate H].

(** The chart is the tail of everything that was ever added. *)
Lemma run_history evs : forall s0 s hist,
  data s0 = slice_last 20 hist ->
  run evs s0 = Some s ->
  data s = slice_last 20 (hist ++ appended evs s0).
Proof.
  induction evs as [| ev rest IH]; intros s0 s hist Hdata Hrun.
  - cbn in *. injection Hrun as <-. now rewrite app_nil_r.
  - step_run ev s0 Hrun s1 Hm.
    pose proof (dispatch_telemetry _ _ Hm) as Hstep.
    destruct (recomputation ev s0) as [smp |].
    + destruct Hstep as (Hd & _).
      rewrite (slice_last_push_history _ smp Hdata) in Hd.
      rewrite (IH _ _ _ Hd Hrun), <- app_assoc. reflexivity.
    + destruct Hstep as (Hd & _).
      apply IH; [congruence | assumption].
Qed.

(** The counter has the number of samples added so far. *)
Lemma run_tick evs : forall s0 s,
  run evs s0 = Some s ->
  tick s = (tick s0 + Z.of_nat (List.length (appended evs s0)))%Z.
Proof.
  induction evs as [| ev rest IH]; intros s0 s Hrun.
  - cbn in *. injection Hrun as <-. lia.
  - step_run ev s0 Hrun s1 Hm.
    pose proof (dispatch_telemetry _ _ Hm) as Hstep.
    destruct (recomputation ev s0) as [smp |];
      rewrite (IH _ _ Hrun); cbn [List.length]; lia.
Qed.

(** The [k]-th sample added carries the counter's start value plus [k]. *)
Lemma appended_index evs : forall s0 k smp,
  nth_error (appended evs s0) k = Some smp ->
  index smp = (tick s0 + Z.of_nat k)%Z.
Proof.
  induction evs as [| ev rest IH]; intros s0 k smp Hk.
  - destruct k; discriminate.
  - cbn [appended] in Hk.
    destruct (mounted (dispatch ev s0)) as [s1 |] eqn:Hm;
      [| destruct k; discriminate].
    pose proof (dispatch_telemetry _ _ Hm) as Hstep.
    destruct (recomputation ev s0) as [smp0 |].
    + destruct Hstep as (_ & Ht & Hi & _).
      destruct k as [| k]; cbn in Hk.
      * injection Hk as <-. lia.
      * rewrite (IH _ _ _ Hk). lia.
    + destruct Hstep as (_ & Ht & _).
      rewrite (IH _ _ _ Hk). lia.
Qed.

Lemma appended_indices evs s0 :
  map index (appended evs s0) =
  map (fun k => (tick s0 + Z.of_nat k)%Z)
      (seq 0 (List.length (appended evs s0))).
Proof.
  apply nth_error_ext. intros k.
  rewrite !nth_error_map.
  destruct (nth_error (appended evs s0) k) as [smp |] eqn:Hk.
  - assert (k < List.length (appended evs s0))%nat as Hlt
      by (apply nth_error_Some; congruence).
    rewrite nth_error_seq.
    destruct (Nat.ltb_spec k (List.length (appended evs s0))); [| lia].
    cbn. f_equal. apply (appended_index _ _ _ Hk).
  - apply nth_error_None in Hk.
    rewrite nth_error_seq.
    destruct (Nat.ltb_spec k (List.length (appended evs s0))); [lia |].
    reflexivity.
Qed.

Lemma dispatch_readout ev s s1 :
  readout_agrees s ->
  mounted (dispatch ev s) = Some s1 ->
  readout_agrees s1.
Proof.
  intros Hs Hm older smp Hd.
  pose proof (dispatch_telemetry _ _ Hm) as Hstep.
  destruct (recomputation ev s) as [smp0 |].
  - destruct Hstep as (Hd1 & _ & _ & Hf).
    rewrite Hd1 in Hd. apply app_inj_tail in Hd as [_ ->]. now rewrite Hf.
  - destruct Hstep as (Hd1 & _ & Hf).
    rewrite Hf. apply (Hs older). congruence.
Qed.

Lemma run_readout evs : forall s0 s,
  readout_agrees s0 -> run evs s0 = Some s -> readout_agrees s.
Proof.
  induction evs as [| ev rest IH]; intros s0 s H0 Hrun.
  - cbn in Hrun. now injection Hrun as <-.
  - step_run ev s0 Hrun s1 Hm.
    eapply IH; [eapply dispatch_readout; eassumption | assumption].
Qed.

End RunFacts.

(** ** The frequency formula *)

Module FrequencyFacts.

(** Each entry of the table has a positive base below its maximum. *)
Lemma preset_ordered name p :
  get enginePresets name = Some p -> 0 < baseFreq p /\ baseFreq p < maxFreq p.
Proof.
  unfold enginePresets. cbn [get].
  repeat match goal with
         | |- context [String.eqb ?k name] => destruct (String.eqb k name)
         end;
    (intros [= <-] || discriminate); cbn; split; reflexivity.
Qed.

Lemma newFreq_monotone p t1 t2 :
  baseFreq p <= maxFreq p -> t1 <= t2 -> newFreq p t1 <= newFreq p t2.
Proof.
  intros Hp Ht. unfold newFreq.
  apply Qplus_le_r.
  rewrite !(Qmult_comm (maxFreq p - baseFreq p)).
  apply Qmult_le_compat_r; [assumption |].
  apply -> Qle_minus_iff; assumption.
Qed.

(** The effect on a running component with a known preset. *)
Lemma useEffect_running s osc p :
  guard s = true ->
  oscillatorRef s = Some osc ->
  get enginePresets (engineType s) = Some p ->
  useEffect_recompute s = Done (recompute p osc s).
Proof.
  intros Hg Ho Hp. unfold useEffect_recompute. now rewrite Hg, Ho, Hp.
Qed.

End FrequencyFacts.

(** C1.  On a recomputation the frequency handed to the oscillator is
    [baseFreq + (maxFreq - baseFreq) * throttle] of the selected preset (the
    readout shows it rounded), and for every preset of the table this value
    does not decrease when the throttle grows; this holds for all throttle
    values, those of the unit interval among them. *)
Theorem C1_frequency_formula_monotone :
  (forall s osc p,
      guard s = true ->
      oscillatorRef s = Some osc ->
      get enginePresets (engineType s) = Some p ->
      exists s',
        useEffect_recompute s = Done s' /\
        oscillatorRef s' =
          Some (frequency_call
                  (setTargetAtTime
                     (baseFreq p + (maxFreq p - baseFreq p) * throttle s)
                     (5 # 100))
                  osc) /\
        frequency s' =
          Math_round (baseFreq p + (maxFreq p - baseFreq p) * throttle s) /\
        throttle s' = throttle s /\ engineType s' = engineType s) /\
  (forall name p t1 t2,
      get enginePresets name = Some p ->
      t1 <= t2 ->
      newFreq p t1 <= newFreq p t2).
Proof.
  split.
  - intros s osc p Hg Ho Hp.
    exists (recompute p osc s). split.
    + now apply FrequencyFacts.useEffect_running.
    + cbn. repeat split; reflexivity.
  - intros name p t1 t2 Hp Ht.
    apply FrequencyFacts.newFreq_monotone; [| assumption].
    apply Qlt_le_weak, (FrequencyFacts.preset_ordered _ Hp).
Qed.

Lemma C1_witness :
  (exists s',
      useEffect_recompute started = Done s' /\ frequency s' = 40%Z) /\
  newFreq porsche 0 <= newFreq porsche 1.
Proof.
  destruct C1_frequency_formula_monotone as [Hformula Hmono]. split.
  - destruct (Hformula started started_oscillator porsche
                eq_refl eq_refl eq_refl) as (s' & Hrun & _ & Hf & _).
    exists s'. split; [exact Hrun | rewrite Hf; reflexivity].
  - apply (Hmono "porsche"%string porsche 0 1 eq_refl). discriminate.
Defined.

(** C9.  The three scenarios, on the formulas and on the component: the
    porsche preset (40 to 2000) at throttle 0 gives frequency 40, rpm 40,
    speed 0, and at throttle 1 frequency 2000, rpm 2000, speed 20; the
    ferrari preset (80 to 4000) at throttle 0.5 gives frequency 2040,
    rpm 2040, speed 20. *)
Theorem C9_scenarios :
  (get enginePresets "porsche"%string = Some porsche /\
   baseFreq porsche = 40 /\ maxFreq porsche = 2000 /\
   get enginePresets "ferrari"%string = Some ferrari /\
   baseFreq ferrari = 80 /\ maxFreq ferrari = 4000) /\
  (newFreq porsche 0 == 40 /\
   Math_round (newFreq porsche 0) = 40%Z /\
   Math_round (newFreq porsche 0 / 100) = 0%Z) /\
  (newFreq porsche 1 == 2000 /\
   Math_round (newFreq porsche 1) = 2000%Z /\
   Math_round (newFreq porsche 1 / 100) = 20%Z) /\
  (newFreq ferrari (1 # 2) == 2040 /\
   Math_round (newFreq ferrari (1 # 2)) = 2040%Z /\
   Math_round (newFreq ferrari (1 # 2) / 100) = 20%Z) /\
  option_map (fun s => (frequency s, data s)) (run [Start] initial)
  = Some (40%Z, [{| index := 0; rpm := 40; speed := 0 |}]) /\
  option_map (fun s => (frequency s, data s)) (run [Slider 1; Start] initial)
  = Some (2000%Z, [{| index := 0; rpm := 2000; speed := 20 |}]) /\
  option_map (fun s => (frequency s, data s))
    (run [Radio "ferrari"; Slider (1 # 2); Start] initial)
  = Some (2040%Z, [{| index := 0; rpm := 2040; speed := 20 |}]).
Proof.
  repeat split; vm_compute; reflexivity.
Qed.

(** ** The throttle *)

Module ThrottleFacts.

Lemma lt_spec a b : lt a b = true <-> a < b.
Proof.
  unfold lt. rewrite negb_true_iff, <- not_true_iff_false, Qle_bool_iff.
  split; [apply Qnot_le_lt | apply Qlt_not_le].
Qed.

(** The effect leaves its dependencies alone. *)
Lemma effect_deps s s1 :
  useEffect_recompute s = Done s1 ->
  throttle s1 = throttle s /\ engineType s1 = engineType s /\
  isRunning s1 = isRunning s.
Proof.
  unfold useEffect_recompute.
  destruct (guard s); [| intros [= <-]; auto].
  destruct (oscillatorRef s); [| discriminate].
  destruct (get enginePresets (engineType s)); [| discriminate].
  intros [= <-]. cbn. auto.
Qed.

Lemma startAudio_throttle s :
  throttle match startAudio s with Returns s1 | Throws _ s1 => s1 end
  = throttle s.
Proof.
  unfold startAudio. destruct (isRunning s); cbn [negb]; [reflexivity |].
  destruct (get enginePresets (engineType s)); reflexivity.
Qed.

(** The throttle after an event is the one its handler left. *)
Lemma dispatch_throttle ev s s1 :
  mounted (dispatch ev s) = Some s1 ->
  throttle s1 =
  throttle match handle ev s with Returns s2 | Throws _ s2 => s2 end.
Proof.
  unfold dispatch. destruct (handle ev s) as [s2 | e s2].
  - destruct (deps_changed s s2).
    + destruct (useEffect_recompute s2) as [s3 | |] eqn:He;
        cbn; intros [= <-].
      * apply (effect_deps _ He).
      * unfold useEffect_recompute in He.
        destruct (guard s2); [| discriminate].
        destruct (oscillatorRef s2); [| discriminate].
        destruct (get enginePresets (engineType s2)); discriminate.
    + cbn. now intros [= <-].
  - cbn. now intros [= <-].
Qed.

Lemma dispatch_throttle_range ev s s1 :
  slider_in_range ev ->
  0 <= throttle s <= 1 ->
  mounted (dispatch ev s) = Some s1 ->
  0 <= throttle s1 <= 1.
Proof.
  intros Hev Hs Hm. rewrite (dispatch_throttle _ _ Hm).
  destruct ev as [| deltaY | value | name]; cbn [handle].
  - now rewrite startAudio_throttle.
  - apply StepFacts.handleScroll_in_range.
  - exact Hev.
  - exact Hs.
Qed.

Lemma run_throttle_range evs : forall s s',
  Forall slider_in_range evs ->
  0 <= throttle s <= 1 ->
  run evs s = Some s' ->
  0 <= throttle s' <= 1.
Proof.
  induction evs as [| ev rest IH]; intros s s' Hevs Hs Hrun.
  - cbn in Hrun. now injection Hrun as <-.
  - inversion Hevs as [| ? ? Hev Hrest]; subst.
    cbn [run] in Hrun.
    destruct (mounted (dispatch ev s)) as [s1 |] eqn:Hm; [| discriminate].
    apply (IH s1 s' Hrest); [| assumption].
    exact (dispatch_throttle_range _ _ Hev Hs Hm).
Qed.

(** While the component is idle the effect's [if] is not taken. *)
Lemma idle_effect s : isRunning s = false -> useEffect_recompute s = Done s.
Proof. intros H. unfold useEffect_recompute, guard. now rewrite H. Qed.

Lemma idle_setThrottle t s :
  isRunning s = false ->
  (if deps_changed s (setThrottle t s)
   then useEffect_recompute (setThrottle t s)
   else Done (setThrottle t s)) = Done (setThrottle t s).
Proof.
  intros H. destruct (deps_changed _ _); [| reflexivity].
  now apply idle_effect.
Qed.

End ThrottleFacts.

(** C2.  A wheel event sets the throttle to [min(1, max(0, old + d))] with
    [d = 0.02] for a negative [deltaY] (scrolling up) and [d = -0.02]
    otherwise, which lies in the unit interval.  A slider event stores the
    value of the range control; the control has min 0 and max 1, and on
    every value it delivers storing is clamping: the new throttle is the
    value and equals [min(1, max(0, value))].  Hence over every sequence of
    wheel events and slider events of the control, with any other events in
    between, the throttle stays in the unit interval. *)
Theorem C2_throttle_stays_in_unit_interval :
  (forall deltaY s,
      deltaY < 0 ->
      throttle (handleScroll deltaY s)
      = Math_min 1 (Math_max 0 (throttle s + (2 # 100)))) /\
  (forall deltaY s,
      0 <= deltaY ->
      throttle (handleScroll deltaY s)
      = Math_min 1 (Math_max 0 (throttle s - (2 # 100)))) /\
  (forall deltaY s, 0 <= throttle (handleScroll deltaY s) <= 1) /\
  (forall value s,
      0 <= value <= 1 ->
      throttle (onChange_throttle value s) = value /\
      throttle (onChange_throttle value s) == Math_min 1 (Math_max 0 value) /\
      0 <= throttle (onChange_throttle value s) <= 1) /\
  (forall evs s s',
      Forall slider_in_range evs ->
      0 <= throttle s <= 1 ->
      run evs s = Some s' ->
      0 <= throttle s' <= 1) /\
  (forall evs s',
      Forall slider_in_range evs ->
      run evs initial = Some s' ->
      0 <= throttle s' <= 1).
Proof.
  split; [| split; [| split; [| split; [| split]]]].
  - intros deltaY s H. apply ThrottleFacts.lt_spec in H.
    unfold handleScroll. now rewrite H.
  - intros deltaY s H. unfold handleScroll.
    destruct (lt deltaY 0) eqn:E; [| reflexivity].
    apply ThrottleFacts.lt_spec in E. now apply Qlt_not_le in E.
  - apply StepFacts.handleScroll_in_range.
  - intros value s [Hlo Hhi]. split; [reflexivity |]. split; [| now split].
    cbn [throttle onChange_throttle setThrottle].
    unfold Math_min, Math_max.
    assert (Qmax 0 value == value) as Hmax by now apply Q.max_r.
    rewrite Q.min_r; [now symmetry |].
    now rewrite Hmax.
  - intros evs s s'. apply (@ThrottleFacts.run_throttle_range evs s s').
  - intros evs s' Hevs Hrun.
    apply (@ThrottleFacts.run_throttle_range evs initial s' Hevs);
      [split; discriminate | exact Hrun].
Qed.

Lemma C2_witness :
  throttle (handleScroll (-1) initial)
  = Math_min 1 (Math_max 0 (throttle initial + (2 # 100))) /\
  throttle (handleScroll 1 initial)
  = Math_min 1 (Math_max 0 (throttle initial - (2 # 100))) /\
  throttle (onChange_throttle (1 # 2) initial)
  == Math_min 1 (Math_max 0 (1 # 2)) /\
  0 <= throttle (handleScroll (-1) (setThrottle (1 # 2) initial)) <= 1.
Proof.
  destruct C2_throttle_stays_in_unit_interval
    as (Hup & Hdown & _ & Hslider & Hrun & _).
  split; [| split; [| split]].
  - apply Hup. reflexivity.
  - apply Hdown. discriminate.
  - apply (Hslider (1 # 2) initial). split; discriminate.
  - apply (Hrun [Slider (1 # 2); Wheel (-1)] initial).
    + repeat constructor; discriminate.
    + split; discriminate.
    + reflexivity.
Defined.

(** C7.  On an idle component a wheel event and a slider event change the
    throttle and nothing else: the refs with the audio nodes, the readout,
    the chart and the counter are those of the state before. *)
Theorem C7_idle_throttle_only :
  forall s,
    isRunning s = false ->
    (forall deltaY,
        dispatch (Wheel deltaY) s =
        Done {| audioCtxRef := audioCtxRef s; oscillatorRef := oscillatorRef s;
                gainRef := gainRef s; isRunning := false;
                frequency := frequency s;
                throttle :=
                  Math_min 1
                    (Math_max 0
                       (throttle s
                        + (if lt deltaY 0 then 2 # 100 else - (2 # 100))));
                data := data s; tick := tick s;
                engineType := engineType s |}) /\
    (forall value,
        dispatch (Slider value) s =
        Done {| audioCtxRef := audioCtxRef s; oscillatorRef := oscillatorRef s;
                gainRef := gainRef s; isRunning := false;
                frequency := frequency s; throttle := value;
                data := data s; tick := tick s;
                engineType := engineType s |}).
Proof.
  intros s Hrun. split.
  - intros deltaY. unfold dispatch, handle, handleScroll.
    rewrite (ThrottleFacts.idle_setThrottle _ _ Hrun).
    unfold setThrottle. now rewrite Hrun.
  - intros value. unfold dispatch, handle, onChange_throttle.
    rewrite (ThrottleFacts.idle_setThrottle _ _ Hrun).
    unfold setThrottle. now rewrite Hrun.
Qed.

Lemma C7_witness :
  dispatch (Wheel (-1)) initial = Done (handleScroll (-1) initial) /\
  dispatch (Slider (1 # 2)) initial = Done (setThrottle (1 # 2) initial).
Proof.
  destruct (C7_idle_throttle_only initial eq_refl) as [Hwheel Hslider].
  split; [apply (Hwheel (-1)) | apply (Hslider (1 # 2))].
Defined.

(** ** Starting *)

Module StartFacts.

Lemma deps_changed_same s : deps_changed s s = false.
Proof.
  unfold deps_changed, same_number.
  rewrite (proj2 (Qeq_bool_iff _ _) (Qeq_refl _)).
  now rewrite Bool.eqb_reflx, String.eqb_refl.
Qed.

(** Start on a running component does nothing at all. *)
Lemma start_running s : isRunning s = true -> dispatch Start s = Done s.
Proof.
  intros H. unfold dispatch, handle, startAudio. rewrite H. cbn [negb].
  now rewrite deps_changed_same.
Qed.

(** The first click with a preset of the table: nodes configured, then
    the effect runs because [isRunning] changed. *)
Lemma start_idle s p :
  isRunning s = false ->
  get enginePresets (engineType s) = Some p ->
  dispatch Start s =
  Done (recompute p
          (osc_start
             (osc_connect
                (frequency_call (setValueAtTime (baseFreq p))
                   (set_type (wave p) createOscillator))))
          (setIsRunning true
             (set_refs (Some new_AudioContext)
                (Some
                   (osc_start
                      (osc_connect
                         (frequency_call (setValueAtTime (baseFreq p))
                            (set_type (wave p) createOscillator)))))
                (Some (gain_call (setValueAtTime (gain p))
                         (gain_connect createGain)))
                s))).
Proof.
  intros Hrun Hp. unfold dispatch, handle, startAudio.
  rewrite Hrun, Hp. cbn [negb].
  unfold deps_changed. cbn [isRunning setIsRunning set_refs].
  rewrite Hrun. cbn [Bool.eqb negb]. rewrite orb_true_r. cbn [orb].
  unfold useEffect_recompute, guard.
  cbn [isRunning oscillatorRef gainRef engineType setIsRunning set_refs andb].
  now rewrite Hp.
Qed.

(** The first click with an identifier the table does not have: fresh
    nodes in the refs, then the lookup result is dereferenced. *)
Lemma start_idle_unknown s :
  isRunning s = false ->
  get enginePresets (engineType s) = None ->
  dispatch Start s =
  Threw TypeError
    (set_refs (Some new_AudioContext) (Some createOscillator)
       (Some createGain) s).
Proof.
  intros Hrun Hp. unfold dispatch, handle, startAudio.
  now rewrite Hrun, Hp.
Qed.

End StartFacts.

(** C5.  Two clicks on Start in a row leave the component exactly where
    one click leaves it, from every state; on a running component a click
    changes nothing. *)
Theorem C5_start_idempotent :
  forall s,
    run [Start; Start] s = run [Start] s /\
    (isRunning s = true -> dispatch Start s = Done s).
Proof.
  intros s. split; [| apply StartFacts.start_running].
  cbn [run].
  destruct (isRunning s) eqn:Hrun.
  - rewrite (StartFacts.start_running _ Hrun). cbn [mounted].
    now rewrite (StartFacts.start_running _ Hrun).
  - destruct (get enginePresets (engineType s)) as [p |] eqn:Hp.
    + rewrite (StartFacts.start_idle _ Hrun Hp). cbn [mounted].
      now rewrite StartFacts.start_running.
    + rewrite (StartFacts.start_idle_unknown _ Hrun Hp). cbn [mounted].
      now rewrite StartFacts.start_idle_unknown.
Qed.

Lemma C5_witness :
  run [Start; Start] initial = run [Start] initial /\
  dispatch Start started = Done started.
Proof.
  destruct (C5_start_idempotent initial) as [Htwice _].
  destruct (C5_start_idempotent started) as [_ Hnoop].
  split; [exact Htwice | apply Hnoop; reflexivity].
Defined.


(** ** The chart and its counter *)

(** C3.  From the first render on, the chart never has more than 20 points
    (a recomputation leaves at most 20 whatever it finds); it is what is
    left of the sequence of all added samples after the oldest are evicted,
    so after 20 or more recomputations it has exactly 20 points, and after
    25 they are the samples with indices 5 to 24. *)
Theorem C3_history_holds_last_twenty :
  forall evs s,
    run evs initial = Some s ->
    (List.length (data s) <= 20)%nat /\
    (forall ev s',
        mounted (dispatch ev s) = Some s' ->
        (List.length (data s') <= 20)%nat) /\
    (exists evicted,
        appended evs initial = evicted ++ data s /\
        List.length evicted = (List.length (appended evs initial) - 20)%nat) /\
    ((20 <= List.length (appended evs initial))%nat ->
     List.length (data s) = 20%nat) /\
    (List.length (appended evs initial) = 25%nat ->
     map index (data s) =
     [5; 6; 7; 8; 9; 10; 11; 12; 13; 14; 15; 16; 17; 18; 19; 20; 21; 22; 23;
      24]%Z).
Proof.
  intros evs s Hrun.
  pose proof (@RunFacts.run_history evs initial s [] eq_refl Hrun) as Hd.
  cbn [app] in Hd.
  assert (List.length (data s)
          = Nat.min 20 (List.length (appended evs initial))) as Hlen
    by (rewrite Hd; apply SliceFacts.slice_last_length).
  split; [lia |]. split; [| repeat split].
  - intros ev s' Hm.
    pose proof (StepFacts.dispatch_telemetry _ _ Hm) as Hstep.
    destruct (recomputation ev s) as [smp |].
    + destruct Hstep as (-> & _).
      rewrite length_app, SliceFacts.slice_last_length. cbn [List.length]. lia.
    + destruct Hstep as (-> & _). lia.
  - exists (firstn (List.length (appended evs initial) - 20)
              (appended evs initial)).
    split.
    + rewrite Hd. apply SliceFacts.slice_last_split.
    + rewrite length_firstn. lia.
  - lia.
  - intros Hn. rewrite Hd. unfold slice_last.
    rewrite <- skipn_map, RunFacts.appended_indices, Hn. reflexivity.
Qed.

Lemma C3_witness :
  List.length (data after_twenty_five) = 20%nat /\
  map index (data after_twenty_five) =
  [5; 6; 7; 8; 9; 10; 11; 12; 13; 14; 15; 16; 17; 18; 19; 20; 21; 22; 23;
   24]%Z.
Proof.
  assert (run twenty_five initial = Some after_twenty_five) as Hrun
    by (vm_compute; reflexivity).
  assert (List.length (appended twenty_five initial) = 25%nat) as Hn
    by (vm_compute; reflexivity).
  destruct (C3_history_holds_last_twenty twenty_five Hrun)
    as (_ & _ & _ & Hfull & Hindices).
  split; [apply Hfull; rewrite Hn; lia | apply Hindices; exact Hn].
Defined.

(** C4.  The first sample added has index 0 and each further one the index
    of its predecessor plus 1: the sample added [k]-th (counting from 0)
    has index [k], and the counter stands at the number of samples added.
    One recomputation stamps the sample with the counter and moves the
    counter up by 1, whatever the length of the chart; any other event
    leaves the counter alone. *)
Theorem C4_index_increases_by_one :
  (tick initial = 0%Z) /\
  (forall evs k smp,
      nth_error (appended evs initial) k = Some smp ->
      index smp = Z.of_nat k) /\
  (forall evs s,
      run evs initial = Some s ->
      tick s = Z.of_nat (List.length (appended evs initial))) /\
  (forall ev s s',
      mounted (dispatch ev s) = Some s' ->
      match recomputation ev s with
      | Some smp =>
          data s' = slice_last 19 (data s) ++ [smp] /\
          index smp = tick s /\
          tick s' = (tick s + 1)%Z
      | None => data s' = data s /\ tick s' = tick s
      end).
Proof.
  split; [reflexivity |]. split; [| split].
  - intros evs k smp Hk.
    now rewrite (RunFacts.appended_index _ _ _ Hk).
  - intros evs s Hrun. now rewrite (RunFacts.run_tick _ _ Hrun).
  - intros ev s s' Hm.
    pose proof (StepFacts.dispatch_telemetry _ _ Hm) as Hstep.
    destruct (recomputation ev s); intuition.
Qed.

Lemma C4_witness :
  index {| index := 0; rpm := 40; speed := 0 |} = 0%Z /\
  tick started = 1%Z /\
  tick after_twenty_five = 25%Z.
Proof.
  destruct C4_index_increases_by_one as (_ & Hindex & Htick & _).
  split; [| split].
  - apply (Hindex [Start] 0%nat). reflexivity.
  - apply (Htick [Start] started). reflexivity.
  - rewrite (Htick twenty_five after_twenty_five) by (vm_compute; reflexivity).
    vm_compute. reflexivity.
Defined.

(** C10.  A recomputation puts the same number into the readout and into
    the rpm of the sample it adds at the end of the chart; consequently, in
    every state a run reaches from the first render, the newest point of the
    chart, if there is one, has the rpm the readout shows. *)
Theorem C10_readout_is_newest_rpm :
  (forall ev s s' smp,
      mounted (dispatch ev s) = Some s' ->
      recomputation ev s = Some smp ->
      data s' = slice_last 19 (data s) ++ [smp] /\ frequency s' = rpm smp) /\
  (forall evs s older smp,
      run evs initial = Some s ->
      data s = older ++ [smp] ->
      rpm smp = frequency s).
Proof.
  split.
  - intros ev s s' smp Hm Hr.
    pose proof (StepFacts.dispatch_telemetry _ _ Hm) as Hstep.
    rewrite Hr in Hstep. intuition.
  - intros evs s older smp Hrun Hd.
    refine (RunFacts.run_readout evs _ Hrun older _ Hd).
    intros [| x l] smp0 H0; discriminate H0.
Qed.

Lemma C10_witness :
  frequency started = 40%Z /\
  rpm {| index := 0; rpm := 40; speed := 0 |} = frequency started.
Proof.
  destruct C10_readout_is_newest_rpm as [Hstep Hrun].
  split.
  - apply (Hstep Start initial started
             {| index := 0; rpm := 40; speed := 0 |});
      reflexivity.
  - apply (Hrun [Start] started []); reflexivity.
Defined.


(** ** Selecting an engine *)

Module SelectFacts.

(** On a running component no handler touches the audio nodes. *)
Lemma handle_running ev s :
  isRunning s = true ->
  exists s1,
    handle ev s = Returns s1 /\
    oscillatorRef s1 = oscillatorRef s /\ gainRef s1 = gainRef s.
Proof.
  intros H. destruct ev; cbn [handle]; [| eexists; split; [reflexivity | auto] ..].
  exists s. unfold startAudio. rewrite H. auto.
Qed.

Lemma guard_oscillator s :
  guard s = true -> exists osc, oscillatorRef s = Some osc.
Proof.
  unfold guard. destruct (oscillatorRef s) as [osc |]; [eauto |].
  rewrite andb_false_r. discriminate.
Qed.

Lemma unknown_is_not_selected name s :
  engineType s <> name ->
  deps_changed s (setEngineType name s) = true.
Proof.
  intros H. unfold deps_changed. cbn [engineType setEngineType].
  apply String.eqb_neq in H. rewrite H. cbn [negb]. apply orb_true_r.
Qed.

End SelectFacts.

(** C6, as the claim has it, fails: an identifier the table does not have
    is taken without any error and replaces the selection. *)
Lemma C6_unknown_identifier_is_stored :
  get enginePresets "tesla"%string = None /\
  dispatch (Radio "tesla") initial = Done (setEngineType "tesla" initial) /\
  engineType (setEngineType "tesla" initial) <> engineType initial.
Proof.
  split; [reflexivity |]. split; [reflexivity |]. discriminate.
Qed.

(** C6, amended.  Selecting stores any identifier, unchecked.  For one the
    table does not have: on an idle component it becomes the selection
    with no error; whenever the component is still mounted afterwards the
    selection is that identifier, never another preset; and the first use
    fails with a TypeError, the recomputation at once on a running
    component, Start on an idle one. *)
Theorem C6_unknown_identifier_never_defaults :
  forall name s,
    get enginePresets name = None ->
    (isRunning s = false ->
     dispatch (Radio name) s = Done (setEngineType name s)) /\
    (forall s',
        mounted (dispatch (Radio name) s) = Some s' -> engineType s' = name) /\
    (guard s = true ->
     engineType s <> name ->
     dispatch (Radio name) s = Unmounted TypeError) /\
    (isRunning s = false ->
     dispatch Start (setEngineType name s) =
     Threw TypeError
       (set_refs (Some new_AudioContext) (Some createOscillator)
          (Some createGain) (setEngineType name s))).
Proof.
  intros name s Hname. split; [| split; [| split]].
  - intros Hrun. unfold dispatch, handle, onChange_engine.
    destruct (deps_changed _ _); [| reflexivity].
    now apply ThrottleFacts.idle_effect.
  - intros s'. unfold dispatch, handle, onChange_engine.
    destruct (deps_changed _ _).
    + destruct (useEffect_recompute _) as [s2 | |] eqn:He; cbn [mounted];
        try discriminate.
      * intros [= <-]. now destruct (ThrottleFacts.effect_deps _ He) as (_ & -> & _).
      * unfold useEffect_recompute in He.
        destruct (guard _); [| discriminate].
        destruct (oscillatorRef _); [| discriminate].
        destruct (get enginePresets _); discriminate.
    + cbn. now intros [= <-].
  - intros Hg Hother. unfold dispatch, handle, onChange_engine.
    rewrite (SelectFacts.unknown_is_not_selected _ Hother).
    unfold useEffect_recompute.
    change (guard (setEngineType name s)) with (guard s). rewrite Hg.
    cbn [oscillatorRef engineType setEngineType].
    destruct (SelectFacts.guard_oscillator _ Hg) as [osc ->].
    now rewrite Hname.
  - intros Hrun. now apply StartFacts.start_idle_unknown.
Qed.

Lemma C6_witness :
  dispatch (Radio "tesla") initial = Done (setEngineType "tesla" initial) /\
  engineType (setEngineType "tesla" initial) = "tesla"%string /\
  dispatch (Radio "tesla") started = Unmounted TypeError /\
  dispatch Start (setEngineType "tesla" initial) =
  Threw TypeError
    (set_refs (Some new_AudioContext) (Some createOscillator)
       (Some createGain) (setEngineType "tesla" initial)).
Proof.
  destruct (C6_unknown_identifier_never_defaults "tesla" initial eq_refl)
    as (Hidle & Hkept & _ & Hstart).
  destruct (C6_unknown_identifier_never_defaults "tesla" started eq_refl)
    as (_ & _ & Hrunning & _).
  split; [| split; [| split]].
  - apply Hidle. reflexivity.
  - apply Hkept. reflexivity.
  - apply Hrunning; [reflexivity | discriminate].
  - apply Hstart. reflexivity.
Defined.

(** ** What reaches the audio backend *)

(** C8, as the claim has it, fails: selecting the mustang on a component
    started with the porsche recomputes, yet the oscillator keeps the
    sawtooth and the gain keeps 0.05, where the mustang has a triangle and
    0.07. *)
Lemma C8_waveform_and_gain_stay :
  run [Start] initial = Some started /\
  recomputation (Radio "mustang") started
  = Some {| index := 1; rpm := 50; speed := 1 |} /\
  option_map
    (fun s => (option_map osc_type (oscillatorRef s),
               option_map gain_gain (gainRef s)))
    (mounted (dispatch (Radio "mustang") started))
  = Some (Some sawtooth, Some [setValueAtTime (5 # 100)]) /\
  get enginePresets "mustang"%string = Some mustang /\
  wave mustang <> sawtooth /\
  ~ gain mustang == 5 # 100.
Proof.
  repeat split; try discriminate; vm_compute; reflexivity.
Qed.

(** C8, amended.  Start on an idle component with a preset of the table
    sets the waveform, the frequency (the base, followed by the target of
    the first recomputation) and the gain of fresh nodes.  After that an
    event changes neither the waveform nor the gain; a recomputation
    issues one thing, the frequency target of the selected preset at the
    current throttle with time constant 0.05, and without a recomputation
    the oscillator is untouched. *)
Theorem C8_only_frequency_follows :
  (forall s p,
      isRunning s = false ->
      get enginePresets (engineType s) = Some p ->
      exists s' osc g,
        dispatch Start s = Done s' /\
        oscillatorRef s' = Some osc /\ gainRef s' = Some g /\
        osc_type osc = wave p /\
        osc_frequency osc =
          [setValueAtTime (baseFreq p);
           setTargetAtTime (newFreq p (throttle s)) (5 # 100)] /\
        gain_gain g = [setValueAtTime (gain p)]) /\
  (forall ev s s',
      isRunning s = true ->
      mounted (dispatch ev s) = Some s' ->
      gainRef s' = gainRef s /\
      option_map osc_type (oscillatorRef s')
      = option_map osc_type (oscillatorRef s) /\
      match recomputation ev s with
      | Some _ =>
          exists osc p,
            oscillatorRef s = Some osc /\
            get enginePresets (engineType s') = Some p /\
            oscillatorRef s' =
              Some (frequency_call
                      (setTargetAtTime (newFreq p (throttle s')) (5 # 100))
                      osc)
      | None => oscillatorRef s' = oscillatorRef s
      end).
Proof.
  split.
  - intros s p Hrun Hp.
    rewrite (StartFacts.start_idle _ Hrun Hp).
    do 3 eexists. split; [reflexivity |].
    cbn. repeat split; reflexivity.
  - intros ev s s' Hrun.
    destruct (SelectFacts.handle_running ev _ Hrun) as (s1 & Hh & Ho & Hg).
    unfold dispatch, recomputation, useEffect_recompute. rewrite Hh.
    destruct (deps_changed s s1); cbn [andb].
    + destruct (guard s1).
      * destruct (oscillatorRef s1) as [osc |] eqn:Hosc; [| discriminate].
        destruct (get enginePresets (engineType s1)) as [p |] eqn:Hp;
          [| discriminate].
        cbn [mounted]. intros [= <-]. cbn. rewrite <- Ho.
        repeat split; [assumption |].
        exists osc, p. auto.
      * cbn. intros [= <-]. rewrite Ho, Hg. auto.
    + cbn. intros [= <-]. rewrite Ho, Hg. auto.
Qed.

Lemma C8_witness :
  (exists s' osc g,
      dispatch Start initial = Done s' /\
      oscillatorRef s' = Some osc /\ gainRef s' = Some g /\
      osc_type osc = sawtooth /\
      osc_frequency osc =
        [setValueAtTime 40; setTargetAtTime (newFreq porsche 0) (5 # 100)] /\
      gain_gain g = [setValueAtTime (5 # 100)]) /\
  gainRef (recompute mustang started_oscillator (setEngineType "mustang" started))
  = gainRef started.
Proof.
  destruct C8_only_frequency_follows as [Hstart Hstep]. split.
  - apply (Hstart initial porsche); reflexivity.
  - apply (Hstep (Radio "mustang") started); reflexivity.
Defined.

(** * Further properties of the component *)

From Stdlib Require Import Lqa.

Import Render Browser.

Unset Implicit Arguments.

(** ** How an event is processed *)

Module DispatchFacts.

(** The two ways an event can end with the component mounted: the handler's
    state is committed as it is and nothing is added to the chart, or the
    effect recomputes and adds one sample. *)
Lemma dispatch_inv ev s s' :
  mounted (dispatch ev s) = Some s' ->
  exists s1,
    (handle ev s = Returns s1 \/ handle ev s = Throws TypeError s1) /\
    ((recomputation ev s = None /\ s' = s1) \/
     exists osc p,
       handle ev s = Returns s1 /\ guard s1 = true /\
       oscillatorRef s1 = Some osc /\
       get enginePresets (engineType s1) = Some p /\
       recomputation ev s = Some (sample p s1) /\
       s' = recompute p osc s1).
Proof.
  unfold dispatch, recomputation, useEffect_recompute.
  destruct (handle ev s) as [s1 | [] s1] eqn:Hh.
  - destruct (deps_changed s s1); cbn [andb];
      [| cbn [mounted]; intros [= <-]; exists s1; auto].
    destruct (guard s1) eqn:Hg;
      [| cbn [mounted]; intros [= <-]; exists s1; auto].
    destruct (oscillatorRef s1) as [osc |] eqn:Ho; [| discriminate].
    destruct (get enginePresets (engineType s1)) as [p |] eqn:Hp;
      [| discriminate].
    cbn [mounted]. intros [= <-]. exists s1. split; [auto |]. right.
    exists osc, p. auto 10.
  - cbn [mounted]. intros [= <-]. exists s1. auto.
Qed.

(** Only Start changes [isRunning], and only to [true]. *)
Lemma handle_isRunning ev s s1 :
  handle ev s = Returns s1 \/ handle ev s = Throws TypeError s1 ->
  isRunning s1 = isRunning s \/
  (ev = Start /\ isRunning s = false /\ isRunning s1 = true).
Proof.
  destruct ev; cbn [handle];
    try (intros [[= <-] | [=]]; left; reflexivity).
  unfold startAudio. destruct (isRunning s) eqn:Hrun; cbn [negb].
  - intros [[= <-] | [=]]. now left.
  - destruct (get enginePresets (engineType s)).
    + intros [[= <-] | [=]]. right. auto.
    + intros [[=] | [= <-]]. left. now cbn.
Qed.

Lemma dispatch_isRunning ev s s' :
  mounted (dispatch ev s) = Some s' ->
  isRunning s' = isRunning s \/
  (ev = Start /\ isRunning s = false /\ isRunning s' = true).
Proof.
  intros Hm. destruct (dispatch_inv _ _ _ Hm) as (s1 & Hh & Hs').
  assert (isRunning s' = isRunning s1) as ->.
  { destruct Hs' as [[_ ->] | (osc & p & _ & _ & _ & _ & _ & ->)];
      reflexivity. }
  exact (handle_isRunning _ _ _ Hh).
Qed.

(** The selection a handler leaves is the old one or the radio's value. *)
Lemma handle_engineType ev s s1 :
  handle ev s = Returns s1 \/ handle ev s = Throws TypeError s1 ->
  engineType s1 = engineType s \/ ev = Radio (engineType s1).
Proof.
  destruct ev; cbn [handle];
    try (intros [[= <-] | [=]]; auto).
  unfold startAudio. destruct (isRunning s); cbn [negb].
  - intros [[= <-] | [=]]. auto.
  - destruct (get enginePresets (engineType s)).
    + intros [[= <-] | [=]]. auto.
    + intros [[=] | [= <-]]. auto.
Qed.

Lemma ui_radio_known name :
  ui_event (Radio name) -> get enginePresets name <> None.
Proof. intros [-> | [-> | ->]]; discriminate. Qed.

End DispatchFacts.

(** ** No failure under the page's own events *)

Module UiFacts.

Lemma table_cases name p :
  get enginePresets name = Some p ->
  (name = "porsche"%string /\ p = porsche) \/
  (name = "ferrari"%string /\ p = ferrari) \/
  (name = "mustang"%string /\ p = mustang).
Proof.
  unfold enginePresets. cbn [get].
  destruct (String.eqb_spec "porsche" name) as [<- |];
    [intros [= <-]; auto |].
  destruct (String.eqb_spec "ferrari" name) as [<- |];
    [intros [= <-]; auto |].
  destruct (String.eqb_spec "mustang" name) as [<- |];
    [intros [= <-]; auto 6 | discriminate].
Qed.

Lemma ui_slider_in_range ev : ui_event ev -> slider_in_range ev.
Proof. destruct ev; cbn; auto. Qed.

Lemma dispatch_ui ev s :
  ui_event ev ->
  get enginePresets (engineType s) <> None ->
  exists s',
    dispatch ev s = Done s' /\
    get enginePresets (engineType s') <> None.
Proof.
  intros Hev Hs.
  assert (exists s1, handle ev s = Returns s1) as [s1 Hh].
  { destruct ev; cbn [handle]; eauto.
    unfold startAudio. destruct (isRunning s); cbn [negb]; eauto.
    destruct (get enginePresets (engineType s)); [eauto | contradiction]. }
  assert (get enginePresets (engineType s1) <> None) as Hs1.
  { destruct (DispatchFacts.handle_engineType ev s _ (or_introl Hh))
      as [-> | ->]; [assumption |].
    now apply DispatchFacts.ui_radio_known. }
  unfold dispatch, useEffect_recompute. rewrite Hh.
  destruct (deps_changed s s1); [| eauto].
  destruct (guard s1) eqn:Hg; [| eauto].
  destruct (SelectFacts.guard_oscillator _ Hg) as [osc ->].
  destruct (get enginePresets (engineType s1)) as [p |] eqn:Hp;
    [| contradiction].
  eexists. split; [reflexivity |].
  change (engineType (recompute p osc s1)) with (engineType s1).
  rewrite Hp. discriminate.
Qed.

(** What a run of the page's events keeps: a selection of the table and a
    throttle in the unit interval. *)
Lemma run_ui evs : forall s0,
  Forall ui_event evs ->
  get enginePresets (engineType s0) <> None ->
  0 <= throttle s0 <= 1 ->
  exists s,
    run evs s0 = Some s /\
    get enginePresets (engineType s) <> None /\
    0 <= throttle s <= 1.
Proof.
  induction evs as [| ev rest IH]; intros s0 Hevs Hs Ht.
  - exists s0. auto.
  - inversion Hevs as [| ? ? Hev Hrest]; subst.
    destruct (dispatch_ui ev s0 Hev Hs) as (s1 & Hd & Hs1).
    assert (0 <= throttle s1 <= 1) as Ht1.
    { apply (@ThrottleFacts.dispatch_throttle_range ev s0 s1);
        [now apply ui_slider_in_range | assumption |].
      now rewrite Hd. }
    cbn [run]. rewrite Hd. cbn [mounted]. now apply IH.
Qed.

End UiFacts.

Module BrowserFacts.

(** With an [AudioContext] the browser-aware handler is the handler. *)
Lemma handle_in_true ev s : handle_in true ev s = handle ev s.
Proof.
  destruct ev; cbn [handle_in handle]; try reflexivity.
  unfold startAudio_in, startAudio. now destruct (isRunning s).
Qed.

Lemma dispatch_in_true ev s : dispatch_in true ev s = dispatch ev s.
Proof. unfold dispatch_in, dispatch. now rewrite handle_in_true. Qed.

(** Without one, Start on an idle component raises and writes nothing. *)
Lemma start_without_context s :
  isRunning s = false -> dispatch_in false Start s = Threw TypeError s.
Proof.
  intros H. unfold dispatch_in, handle_in, startAudio_in. now rewrite H.
Qed.

(** Without one, every other event goes through as usual. *)
Lemma dispatch_in_false ev s :
  ev <> Start \/ isRunning s = true ->
  dispatch_in false ev s = dispatch ev s.
Proof.
  intros H. unfold dispatch_in, dispatch.
  destruct ev; cbn [handle_in handle]; try reflexivity.
  destruct H as [H | H]; [contradiction |].
  unfold startAudio_in, startAudio. now rewrite H.
Qed.

End BrowserFacts.

(** With a selection the table has, the events the controls can produce
    never unmount the component, and an exception in a handler has one
    cause only.  In a browser with an [AudioContext] constructor every such
    event is processed to the end without any exception and leaves a
    selection the table has.  In a browser without one, Start on an idle
    component raises a TypeError before anything is written, so the state
    is the one before and the component stays idle; every other event is
    processed to the end as in the first browser.  Hence a run of such
    events from the first render stays mounted in either browser, and
    without the constructor it stays idle with no audio node and an empty
    chart. *)
Theorem ui_events_never_raise :
  (forall ev s,
      ui_event ev ->
      get enginePresets (engineType s) <> None ->
      exists s',
        dispatch_in true ev s = Done s' /\
        get enginePresets (engineType s') <> None) /\
  (forall s,
      isRunning s = false ->
      dispatch_in false Start s = Threw TypeError s) /\
  (forall ev s,
      ui_event ev ->
      get enginePresets (engineType s) <> None ->
      ev <> Start \/ isRunning s = true ->
      exists s',
        dispatch_in false ev s = Done s' /\
        get enginePresets (engineType s') <> None) /\
  (forall has_AudioContext evs,
      Forall ui_event evs ->
      exists s,
        run_in has_AudioContext evs initial = Some s /\
        get enginePresets (engineType s) <> None /\
        (has_AudioContext = false ->
         isRunning s = false /\ oscillatorRef s = None /\
         gainRef s = None /\ data s = [])).
Proof.
  split; [| split; [| split]].
  - intros ev s Hev Hs. rewrite BrowserFacts.dispatch_in_true.
    now apply UiFacts.dispatch_ui.
  - exact BrowserFacts.start_without_context.
  - intros ev s Hev Hs Hother. rewrite BrowserFacts.dispatch_in_false by assumption.
    now apply UiFacts.dispatch_ui.
  - intros b evs.
    assert (get enginePresets (engineType initial) <> None) as Hknown
      by discriminate.
    assert (b = false ->
            isRunning initial = false /\ oscillatorRef initial = None /\
            gainRef initial = None /\ data initial = []) as Hidle
      by (intros _; repeat split).
    revert Hknown Hidle. generalize initial.
    induction evs as [| ev rest IH]; intros s Hs Hi Hevs.
    + exists s. auto.
    + inversion Hevs as [| ? ? Hev Hrest]; subst.
      cbn [run_in].
      destruct b.
      * rewrite BrowserFacts.dispatch_in_true.
        destruct (UiFacts.dispatch_ui ev s Hev Hs) as (s1 & -> & Hs1).
        cbn [mounted]. apply IH; [assumption | discriminate | assumption].
      * destruct (Hi eq_refl) as (Hrun & Ho & Hg & Hd).
        destruct ev as [| deltaY | value | name].
        -- rewrite (BrowserFacts.start_without_context s Hrun).
           cbn [mounted]. now apply IH.
        -- rewrite BrowserFacts.dispatch_in_false by (left; discriminate).
           unfold dispatch, handle, handleScroll.
           rewrite (ThrottleFacts.idle_setThrottle _ _ Hrun).
           cbn [mounted]. apply IH; [exact Hs | | assumption].
           intros _. cbn. auto.
        -- rewrite BrowserFacts.dispatch_in_false by (left; discriminate).
           unfold dispatch, handle, onChange_throttle.
           rewrite (ThrottleFacts.idle_setThrottle _ _ Hrun).
           cbn [mounted]. apply IH; [exact Hs | | assumption].
           intros _. cbn. auto.
        -- rewrite BrowserFacts.dispatch_in_false by (left; discriminate).
           unfold dispatch, handle, onChange_engine.
           assert (useEffect_recompute (setEngineType name s)
                   = Done (setEngineType name s)) as He
             by now apply ThrottleFacts.idle_effect.
           destruct (deps_changed s (setEngineType name s));
             rewrite ?He; cbn [mounted];
             (apply IH;
              [now apply DispatchFacts.ui_radio_known
              | intros _; cbn; auto
              | assumption]).
Qed.

Lemma ui_events_never_raise_witness :
  (exists s',
      dispatch_in true Start initial = Done s' /\
      get enginePresets (engineType s') <> None) /\
  dispatch_in false Start initial = Threw TypeError initial /\
  (exists s',
      dispatch_in false (Radio "ferrari") initial = Done s' /\
      get enginePresets (engineType s') <> None) /\
  (exists s,
      run_in false [Radio "mustang"; Slider (1 # 2); Start; Wheel (-1)] initial
      = Some s /\
      get enginePresets (engineType s) <> None /\
      isRunning s = false /\ oscillatorRef s = None /\
      gainRef s = None /\ data s = []).
Proof.
  destruct ui_events_never_raise as (Hwith & Hstart & Hother & Hrun).
  split; [| split; [| split]].
  - apply Hwith; [exact I | discriminate].
  - apply Hstart. reflexivity.
  - apply Hother; [cbn; auto | discriminate | left; discriminate].
  - destruct (Hrun false
                [Radio "mustang"; Slider (1 # 2); Start; Wheel (-1)])
      as (s & Hr & Hknown & Hidle).
    + repeat constructor; cbn; auto; discriminate.
    + exists s. split; [exact Hr |]. split; [exact Hknown |].
      apply Hidle. reflexivity.
Defined.

(** ** Running is for good *)

(** [isRunning] changes on one occasion only, a Start on an idle component,
    and then to [true]: once the component runs, no sequence of events
    makes it idle again. *)
Theorem running_never_ends :
  (forall ev s s',
      mounted (dispatch ev s) = Some s' ->
      isRunning s' = isRunning s \/
      (ev = Start /\ isRunning s = false /\ isRunning s' = true)) /\
  (forall evs s s',
      isRunning s = true ->
      run evs s = Some s' ->
      isRunning s' = true).
Proof.
  split; [apply DispatchFacts.dispatch_isRunning |].
  induction evs as [| ev rest IH]; intros s s' Hs Hrun.
  - cbn in Hrun. now injection Hrun as <-.
  - cbn [run] in Hrun.
    destruct (mounted (dispatch ev s)) as [s1 |] eqn:Hm; [| discriminate].
    apply (IH s1 s'); [| assumption].
    destruct (DispatchFacts.dispatch_isRunning _ _ _ Hm) as [-> | (_ & _ & ->)];
      auto.
Qed.

Lemma running_never_ends_witness :
  (isRunning started = isRunning initial \/
   (Start = Start /\ isRunning initial = false /\ isRunning started = true)) /\
  isRunning (recompute mustang started_oscillator
               (setEngineType "mustang" started)) = true.
Proof.
  destruct running_never_ends as [Hstep Hrun]. split.
  - apply (Hstep Start initial started). reflexivity.
  - apply (Hrun [Start; Radio "mustang"] started); reflexivity.
Defined.

(** ** The audio graph of a running component *)

Module GraphFacts.

Lemma handle_complete ev s s1 :
  running_complete s ->
  handle ev s = Returns s1 \/ handle ev s = Throws TypeError s1 ->
  running_complete s1.
Proof.
  intros Hs.
  destruct ev; cbn [handle];
    try (intros [[= <-] | [=]]; exact Hs).
  unfold startAudio. destruct (isRunning s) eqn:Hrun; cbn [negb].
  - intros [[= <-] | [=]]. exact Hs.
  - destruct (get enginePresets (engineType s)) as [p |].
    + intros [[= <-] | [=]] _. do 2 eexists. cbn. repeat split; reflexivity.
    + intros [[=] | [= <-]]. unfold running_complete. cbn. congruence.
Qed.

Lemma recompute_complete p osc s :
  oscillatorRef s = Some osc ->
  graph_complete s ->
  graph_complete (recompute p osc s).
Proof.
  intros Ho (osc0 & g & Hc & Ho0 & Hg & H1 & H2 & H3).
  rewrite Ho in Ho0. injection Ho0 as <-.
  exists (frequency_call (setTargetAtTime (newFreq p (throttle s)) (5 # 100)) osc), g.
  cbn. auto 10.
Qed.

Lemma dispatch_complete ev s s' :
  running_complete s ->
  mounted (dispatch ev s) = Some s' ->
  running_complete s'.
Proof.
  intros Hs Hm.
  destruct (DispatchFacts.dispatch_inv _ _ _ Hm) as (s1 & Hh & Hs').
  pose proof (handle_complete ev _ _ Hs Hh) as Hs1.
  destruct Hs' as [[_ ->] | (osc & p & _ & Hg & Ho & _ & _ & ->)];
    [assumption |].
  intros _. apply recompute_complete; [assumption |].
  apply Hs1. unfold guard in Hg.
  destruct (isRunning s1); [reflexivity | discriminate].
Qed.

End GraphFacts.

(** From the first render on, a running component has its audio context,
    an oscillator that is connected and started, and a connected gain node;
    the refs half of the effect's condition then always holds. *)
Theorem running_graph_is_complete :
  forall evs s,
    run evs initial = Some s ->
    isRunning s = true ->
    graph_complete s /\ guard s = true.
Proof.
  assert (forall evs s0 s,
             running_complete s0 -> run evs s0 = Some s -> running_complete s)
    as Hrun.
  { induction evs as [| ev rest IH]; intros s0 s H0 Hr.
    - cbn in Hr. now injection Hr as <-.
    - cbn [run] in Hr.
      destruct (mounted (dispatch ev s0)) as [s1 |] eqn:Hm; [| discriminate].
      eapply IH; [eapply GraphFacts.dispatch_complete; eassumption | assumption]. }
  intros evs s Hr Hs.
  assert (running_complete initial) as Hinit by (intros H; discriminate H).
  pose proof (Hrun _ _ _ Hinit Hr Hs) as Hc. split; [exact Hc |].
  destruct Hc as (osc & g & _ & Ho & Hg & _).
  unfold guard. now rewrite Hs, Ho, Hg.
Qed.

Lemma running_graph_is_complete_witness :
  graph_complete started /\ guard started = true.
Proof.
  apply (running_graph_is_complete [Start]); reflexivity.
Defined.

Module AudioFacts.

(** One event on a running component: same gain node, same waveform. *)
Lemma running_step ev s s' :
  isRunning s = true ->
  mounted (dispatch ev s) = Some s' ->
  isRunning s' = true /\
  gainRef s' = gainRef s /\
  option_map osc_type (oscillatorRef s')
  = option_map osc_type (oscillatorRef s).
Proof.
  intros Hs Hm.
  destruct (SelectFacts.handle_running ev _ Hs) as (s1 & Hh & Ho & Hg).
  split.
  { destruct (DispatchFacts.dispatch_isRunning _ _ _ Hm) as [-> | (_ & _ & ->)];
      auto. }
  destruct (DispatchFacts.dispatch_inv _ _ _ Hm) as (s2 & Hh2 & Hs').
  assert (s2 = s1) as -> by (destruct Hh2; congruence).
  destruct Hs' as [[_ ->] | (osc & p & _ & _ & Hosc & _ & _ & ->)].
  - now rewrite Ho, Hg.
  - cbn. rewrite <- Ho, Hosc. auto.
Qed.

Lemma running_run evs : forall s s',
  isRunning s = true ->
  run evs s = Some s' ->
  gainRef s' = gainRef s /\
  option_map osc_type (oscillatorRef s')
  = option_map osc_type (oscillatorRef s).
Proof.
  induction evs as [| ev rest IH]; intros s s' Hs Hr.
  - cbn in Hr. injection Hr as <-. auto.
  - cbn [run] in Hr.
    destruct (mounted (dispatch ev s)) as [s1 |] eqn:Hm; [| discriminate].
    destruct (running_step _ _ _ Hs Hm) as (Hs1 & Hg & Ho).
    destruct (IH _ _ Hs1 Hr) as (Hg' & Ho').
    split; congruence.
Qed.

End AudioFacts.

(** The waveform and the gain of a session are those of the engine that
    was selected when Start was clicked: whatever is selected, scrolled or
    dragged afterwards, the oscillator keeps that waveform and the gain
    node its one value. *)
Theorem waveform_and_gain_fixed_at_start :
  forall s p evs s',
    isRunning s = false ->
    get enginePresets (engineType s) = Some p ->
    run (Start :: evs) s = Some s' ->
    option_map osc_type (oscillatorRef s') = Some (wave p) /\
    option_map gain_gain (gainRef s') = Some [setValueAtTime (gain p)].
Proof.
  intros s p evs s' Hs Hp Hr. cbn [run] in Hr.
  rewrite (StartFacts.start_idle _ Hs Hp) in Hr. cbn [mounted] in Hr.
  match type of Hr with
  | run evs ?s1 = _ =>
      assert (isRunning s1 = true) as Hs1 by reflexivity;
      destruct (AudioFacts.running_run evs s1 s' Hs1 Hr) as (-> & ->)
  end.
  split; reflexivity.
Qed.

Lemma waveform_and_gain_fixed_at_start_witness :
  option_map osc_type
    (oscillatorRef
       (recompute mustang started_oscillator (setEngineType "mustang" started)))
  = Some (wave porsche) /\
  option_map gain_gain
    (gainRef
       (recompute mustang started_oscillator (setEngineType "mustang" started)))
  = Some [setValueAtTime (gain porsche)].
Proof.
  apply (waveform_and_gain_fixed_at_start initial porsche [Radio "mustang"]);
    reflexivity.
Defined.

Module InStepFacts.

(** One event on a component that glides for [p]. *)
Lemma glides_step p ev s s' hist :
  glides_of p s hist ->
  mounted (dispatch ev s) = Some s' ->
  glides_of p s'
    (hist ++ match recomputation ev s with Some smp => [smp] | None => [] end).
Proof.
  intros (osc & targets & Hs & Ho & Hty & Hf & Hr) Hm.
  destruct (SelectFacts.handle_running ev _ Hs) as (s1 & Hh & Ho1 & _).
  destruct (DispatchFacts.dispatch_inv _ _ _ Hm) as (s2 & Hh2 & Hs').
  assert (s2 = s1) as -> by (destruct Hh2; congruence).
  assert (isRunning s1 = true) as Hs1.
  { destruct (DispatchFacts.handle_isRunning _ _ _ Hh2) as [-> | (_ & _ & ->)];
      auto. }
  destruct Hs' as [[-> ->] | (osc' & p' & _ & _ & Ho' & _ & -> & ->)].
  - rewrite app_nil_r. exists osc, targets.
    rewrite Ho1. auto 6.
  - rewrite Ho1, Ho in Ho'. injection Ho' as <-.
    exists (frequency_call
              (setTargetAtTime (newFreq p' (throttle s1)) (5 # 100)) osc),
      (targets ++ [newFreq p' (throttle s1)]).
    split; [exact Hs1 |]. split; [reflexivity |]. split; [exact Hty |].
    split.
    + cbn [osc_frequency frequency_call]. rewrite Hf, map_app. reflexivity.
    + rewrite !map_app, Hr. reflexivity.
Qed.

Lemma glides_run p evs : forall s0 s hist,
  glides_of p s0 hist ->
  run evs s0 = Some s ->
  glides_of p s (hist ++ appended evs s0).
Proof.
  induction evs as [| ev rest IH]; intros s0 s hist H0 Hr.
  - cbn in *. injection Hr as <-. now rewrite app_nil_r.
  - cbn [run appended] in *.
    destruct (mounted (dispatch ev s0)) as [s1 |] eqn:Hm; [| discriminate].
    pose proof (glides_step _ _ _ _ _ H0 Hm) as H1.
    pose proof (IH _ _ _ H1 Hr) as H2.
    destruct (recomputation ev s0) as [smp |].
    + now rewrite <- app_assoc in H2.
    + now rewrite app_nil_r in H1, H2.
Qed.

(** The sample of the recomputation that Start itself sets off. *)
Lemma start_sample s p :
  isRunning s = false ->
  get enginePresets (engineType s) = Some p ->
  recomputation Start s = Some (sample p s).
Proof.
  intros Hs Hp.
  unfold recomputation, handle, startAudio. rewrite Hs, Hp. cbn [negb].
  unfold deps_changed. cbn [isRunning setIsRunning set_refs].
  rewrite Hs. cbn [Bool.eqb negb]. rewrite orb_true_r. cbn [orb andb].
  unfold guard.
  cbn [isRunning oscillatorRef gainRef engineType setIsRunning set_refs andb].
  now rewrite Hp.
Qed.

(** Start on an idle component with a preset [p] of the table: [p]'s
    waveform, [p]'s base, and the first target with the first sample. *)
Lemma start_glides s p :
  isRunning s = false ->
  get enginePresets (engineType s) = Some p ->
  exists s1,
    dispatch Start s = Done s1 /\ glides_of p s1 [sample p s].
Proof.
  intros Hs Hp. rewrite (StartFacts.start_idle _ Hs Hp).
  eexists. split; [reflexivity |].
  eexists _, [newFreq p (throttle s)].
  split; [reflexivity |]. split; [reflexivity |].
  split; [reflexivity |]. split; reflexivity.
Qed.

Lemma dispatch_in_step ev s s' hist :
  in_step s hist ->
  mounted (dispatch ev s) = Some s' ->
  in_step s'
    (hist ++ match recomputation ev s with Some smp => [smp] | None => [] end).
Proof.
  intros [Hidle Hrun] Hm.
  destruct (isRunning s) eqn:Hs.
  - destruct (Hrun eq_refl) as (name & p & Hp & Hg).
    pose proof (glides_step _ _ _ _ _ Hg Hm) as Hg'.
    split.
    + destruct Hg' as (_ & _ & Hs' & _). congruence.
    + intros _. exists name, p. auto.
  - rewrite (Hidle eq_refl). cbn [app].
    destruct (DispatchFacts.dispatch_isRunning _ _ _ Hm)
      as [Hsame | (-> & _ & Hs')].
    + (* still idle: the effect's condition fails *)
      rewrite Hs in Hsame.
      destruct (DispatchFacts.dispatch_inv _ _ _ Hm) as (s1 & _ & Hs1).
      destruct Hs1 as [[Hnone ->] | (osc & p & _ & Hg & _ & _ & _ & ->)].
      * rewrite Hnone. split; [reflexivity | congruence].
      * change (isRunning (recompute p osc s1)) with (isRunning s1) in Hsame.
        unfold guard in Hg. rewrite Hsame in Hg. discriminate Hg.
    + (* Start went through *)
      destruct (get enginePresets (engineType s)) as [p |] eqn:Hp.
      * destruct (start_glides s p Hs Hp) as (s1 & Hd & Hg).
        rewrite Hd in Hm. injection Hm as <-.
        rewrite (start_sample s p Hs Hp).
        split; [congruence |]. intros _. exists (engineType s), p. auto.
      * rewrite (StartFacts.start_idle_unknown _ Hs Hp) in Hm.
        injection Hm as <-. cbn in Hs'. congruence.
Qed.

Lemma run_in_step evs : forall s0 s hist,
  in_step s0 hist ->
  run evs s0 = Some s ->
  in_step s (hist ++ appended evs s0).
Proof.
  induction evs as [| ev rest IH]; intros s0 s hist H0 Hr.
  - cbn in *. injection Hr as <-. now rewrite app_nil_r.
  - cbn [run appended] in *.
    destruct (mounted (dispatch ev s0)) as [s1 |] eqn:Hm; [| discriminate].
    pose proof (dispatch_in_step _ _ _ _ H0 Hm) as H1.
    pose proof (IH _ _ _ H1 Hr) as H2.
    destruct (recomputation ev s0) as [smp |].
    + now rewrite <- app_assoc in H2.
    + now rewrite app_nil_r in H1, H2.
Qed.

End InStepFacts.

(** The chart and the oscillator move in step, from the base that Start
    sets.  After a Start on an idle component with preset [p] of the table
    and any further events, the oscillator's frequency has received
    [setValueAtTime] of [p]'s [baseFreq] followed by exactly one glide
    target per sample added since, Start's own first, each with time
    constant 0.05; the rpm of the k-th sample is the rounding of the k-th
    target, and the counter has moved up by their number.  From the first
    render: before the component runs nothing has been added to the chart;
    once it runs the above holds for a preset of the table, which is the
    one whose waveform the oscillator has, with all samples ever added, and
    the counter has their number. *)
Theorem chart_and_oscillator_in_step :
  (forall s p evs s',
      isRunning s = false ->
      get enginePresets (engineType s) = Some p ->
      run (Start :: evs) s = Some s' ->
      exists osc targets,
        oscillatorRef s' = Some osc /\
        osc_type osc = wave p /\
        osc_frequency osc =
          setValueAtTime (baseFreq p)
          :: map (fun f => setTargetAtTime f (5 # 100)) targets /\
        map Math_round targets = map rpm (appended (Start :: evs) s) /\
        tick s' = (tick s + Z.of_nat (List.length targets))%Z) /\
  (forall evs s,
      run evs initial = Some s ->
      (isRunning s = false -> appended evs initial = [] /\ data s = []) /\
      (isRunning s = true ->
       exists osc name p targets,
         get enginePresets name = Some p /\
         oscillatorRef s = Some osc /\
         osc_type osc = wave p /\
         osc_frequency osc =
           setValueAtTime (baseFreq p)
           :: map (fun f => setTargetAtTime f (5 # 100)) targets /\
         map Math_round targets = map rpm (appended evs initial) /\
         Z.of_nat (List.length targets) = tick s)).
Proof.
  split.
  - intros s p evs s' Hs Hp Hr.
    pose proof (@RunFacts.run_tick (Start :: evs) s s' Hr) as Ht.
    cbn [run appended] in Hr |- *.
    destruct (InStepFacts.start_glides s p Hs Hp) as (s1 & Hd & Hg).
    rewrite Hd in Hr. cbn [mounted] in Hr.
    cbn [appended] in Ht. rewrite Hd in *. cbn [mounted] in *.
    rewrite (InStepFacts.start_sample s p Hs Hp) in *.
    destruct (InStepFacts.glides_run p evs s1 s' _ Hg Hr)
      as (osc & targets & _ & Ho & Hty & Hf & Hm).
    cbn [app] in Hm.
    exists osc, targets. repeat (split; [assumption |]).
    rewrite Ht. f_equal. f_equal.
    now rewrite <- (length_map Math_round targets), Hm, length_map.
  - intros evs s Hr.
    assert (in_step initial []) as Hinit
      by (split; [reflexivity | discriminate]).
    destruct (InStepFacts.run_in_step evs _ _ _ Hinit Hr) as [Hidle Hrun].
    cbn [app] in Hidle, Hrun. split.
    + intros Hs. pose proof (Hidle Hs) as Hnone. split; [exact Hnone |].
      rewrite (@RunFacts.run_history evs initial s [] eq_refl Hr).
      cbn [app]. now rewrite Hnone.
    + intros Hs.
      destruct (Hrun Hs)
        as (name & p & Hp & osc & targets & _ & Ho & Hty & Hf & Hm).
      exists osc, name, p, targets. repeat (split; [assumption |]).
      rewrite (@RunFacts.run_tick evs initial s Hr). cbn [tick initial].
      rewrite <- (length_map Math_round targets), Hm, length_map. lia.
Qed.

Lemma chart_and_oscillator_in_step_witness :
  (exists osc targets,
      oscillatorRef started = Some osc /\
      osc_type osc = wave porsche /\
      osc_frequency osc =
        setValueAtTime (baseFreq porsche)
        :: map (fun f => setTargetAtTime f (5 # 100)) targets /\
      map Math_round targets = map rpm (appended [Start] initial) /\
      tick started = (tick initial + Z.of_nat (List.length targets))%Z) /\
  (exists osc name p targets,
      get enginePresets name = Some p /\
      oscillatorRef started = Some osc /\
      osc_type osc = wave p /\
      osc_frequency osc =
        setValueAtTime (baseFreq p)
        :: map (fun f => setTargetAtTime f (5 # 100)) targets /\
      map Math_round targets = map rpm (appended [Start] initial) /\
      Z.of_nat (List.length targets) = tick started).
Proof.
  destruct chart_and_oscillator_in_step as [Hstart Hinit]. split.
  - apply (Hstart initial porsche [] started); reflexivity.
  - destruct (Hinit [Start] started eq_refl) as [_ Hrun].
    apply Hrun. reflexivity.
Defined.

(** ** Rounding *)

Module RoundFacts.

Lemma floor_unique (x : Q) (n : Z) :
  inject_Z n <= x -> x < inject_Z (n + 1) -> Qfloor x = n.
Proof.
  intros Hlo Hhi.
  pose proof (Qfloor_le x) as H1. pose proof (Qlt_floor x) as H2.
  assert (inject_Z (Qfloor x) < inject_Z (n + 1)) as H3 by lra.
  assert (inject_Z n < inject_Z (Qfloor x + 1)) as H4 by lra.
  rewrite <- Zlt_Qlt in H3, H4. lia.
Qed.

Lemma Math_round_monotone x y : x <= y -> (Math_round x <= Math_round y)%Z.
Proof. intros H. apply Qfloor_resp_le. lra. Qed.

Lemma Math_round_integer (n : Z) : Math_round (inject_Z n) = n.
Proof.
  apply floor_unique; [lra |].
  rewrite inject_Z_plus. change (inject_Z 1) with 1. lra.
Qed.

(** The rounded value is within one half of the number. *)
Lemma Math_round_near x :
  x - (1 # 2) < inject_Z (Math_round x) <= x + (1 # 2).
Proof.
  unfold Math_round.
  pose proof (Qfloor_le (x + (1 # 2))) as H1.
  pose proof (Qlt_floor (x + (1 # 2))) as H2.
  rewrite inject_Z_plus in H2. change (inject_Z 1) with 1 in H2.
  split; lra.
Qed.

(** Numbers within one of each other round to integers within one. *)
Lemma Math_round_step x y : x <= y + 1 -> (Math_round x <= Math_round y + 1)%Z.
Proof.
  intros H.
  pose proof (Math_round_near x) as [_ Hx].
  pose proof (Math_round_near y) as [Hy _].
  assert (inject_Z (Math_round x) < inject_Z (Math_round y + 1 + 1)) as Hlt.
  { rewrite !inject_Z_plus. change (inject_Z 1) with 1. lra. }
  rewrite <- Zlt_Qlt in Hlt. lia.
Qed.

Lemma div100 x y : x <= y -> x / 100 <= y / 100.
Proof.
  intros H. unfold Qdiv. apply Qmult_le_compat_r; [assumption | discriminate].
Qed.

End RoundFacts.

(** ** The values on the dashboard *)

Module RangeFacts.

Lemma newFreq_between name p t :
  get enginePresets name = Some p ->
  0 <= t <= 1 ->
  baseFreq p <= newFreq p t <= maxFreq p.
Proof.
  intros Hp Ht.
  destruct (@FrequencyFacts.preset_ordered name p Hp) as [_ Hlt].
  apply Qlt_le_weak in Hlt.
  pose proof (@FrequencyFacts.newFreq_monotone p 0 t Hlt (proj1 Ht)) as Hlo.
  pose proof (@FrequencyFacts.newFreq_monotone p t 1 Hlt (proj2 Ht)) as Hhi.
  unfold newFreq in *. lra.
Qed.

Lemma table_range name p :
  get enginePresets name = Some p -> 40 <= baseFreq p /\ maxFreq p <= 4000.
Proof.
  intros Hp.
  destruct (UiFacts.table_cases _ _ Hp) as [[_ ->] | [[_ ->] | [_ ->]]];
    cbn; split; discriminate.
Qed.

(** Every sample of an engine of the table at a throttle of the unit
    interval. *)
Lemma sample_range name p s :
  get enginePresets name = Some p ->
  0 <= throttle s <= 1 ->
  (40 <= rpm (sample p s) <= 4000)%Z /\ (0 <= speed (sample p s) <= 40)%Z.
Proof.
  intros Hp Ht.
  destruct (newFreq_between _ _ _ Hp Ht) as [Hlo Hhi].
  destruct (table_range _ _ Hp) as [Hb Hm].
  cbn [rpm speed sample]. repeat split.
  - change 40%Z with (Math_round 40).
    apply RoundFacts.Math_round_monotone. lra.
  - change 4000%Z with (Math_round 4000).
    apply RoundFacts.Math_round_monotone. lra.
  - change 0%Z with (Math_round (40 / 100)).
    apply RoundFacts.Math_round_monotone, RoundFacts.div100. lra.
  - change 40%Z with (Math_round (4000 / 100)).
    apply RoundFacts.Math_round_monotone, RoundFacts.div100. lra.
Qed.

Lemma dispatch_range ev s s' :
  ui_event ev ->
  0 <= throttle s <= 1 ->
  mounted (dispatch ev s) = Some s' ->
  ((40 <= frequency s <= 4000)%Z -> (40 <= frequency s' <= 4000)%Z) /\
  (forall smp,
      recomputation ev s = Some smp ->
      (40 <= rpm smp <= 4000)%Z /\ (0 <= speed smp <= 40)%Z).
Proof.
  intros Hev Ht Hm.
  pose proof (@ThrottleFacts.dispatch_throttle_range ev s s'
                (UiFacts.ui_slider_in_range ev Hev) Ht Hm) as Ht'.
  destruct (DispatchFacts.dispatch_inv _ _ _ Hm) as (s1 & Hh & Hs').
  destruct Hs' as [[Hnone ->] | (osc & p & Hret & _ & _ & Hp & Hsome & ->)].
  - split.
    + assert (frequency s1 = frequency s) as ->; [| auto].
      generalize (StepFacts.handle_frame ev s).
      destruct Hh as [-> | ->]; cbn; tauto.
    + intros smp. rewrite Hnone. discriminate.
  - change (throttle (recompute p osc s1)) with (throttle s1) in Ht'.
    pose proof (sample_range (engineType s1) p s1 Hp Ht') as Hr.
    split.
    + intros _. exact (proj1 Hr).
    + intros smp. rewrite Hsome. intros [= <-]. exact Hr.
Qed.

Lemma run_range evs : forall s0 s,
  Forall ui_event evs ->
  0 <= throttle s0 <= 1 ->
  run evs s0 = Some s ->
  ((40 <= frequency s0 <= 4000)%Z -> (40 <= frequency s <= 4000)%Z) /\
  (forall smp,
      In smp (appended evs s0) ->
      (40 <= rpm smp <= 4000)%Z /\ (0 <= speed smp <= 40)%Z).
Proof.
  induction evs as [| ev rest IH]; intros s0 s Hevs Ht Hr.
  - cbn in *. injection Hr as <-. split; [auto | contradiction].
  - inversion Hevs as [| ? ? Hev Hrest]; subst.
    cbn [run appended] in *.
    destruct (mounted (dispatch ev s0)) as [s1 |] eqn:Hm; [| discriminate].
    destruct (dispatch_range ev s0 s1 Hev Ht Hm) as [Hf Hs].
    pose proof (@ThrottleFacts.dispatch_throttle_range ev s0 s1
                  (UiFacts.ui_slider_in_range ev Hev) Ht Hm) as Ht1.
    destruct (IH s1 s Hrest Ht1 Hr) as [Hf' Hs'].
    split; [auto |].
    intros smp. destruct (recomputation ev s0) as [smp0 |]; [| apply Hs'].
    intros [<- | Hin]; [now apply Hs | now apply Hs'].
Qed.

End RangeFacts.

(** Under the page's own events the dashboard stays within the range of
    the engines.  For an engine of the table and a throttle of the unit
    interval the frequency lies between the engine's base and maximum;
    every sample ever added has an rpm between 40 and 4000 and a speed
    between 0 and 40; and so has the rpm readout. *)
Theorem dashboard_within_engine_range :
  (forall name p t,
      get enginePresets name = Some p ->
      0 <= t <= 1 ->
      baseFreq p <= newFreq p t <= maxFreq p) /\
  (forall evs s smp,
      Forall ui_event evs ->
      run evs initial = Some s ->
      In smp (appended evs initial) ->
      (40 <= rpm smp <= 4000)%Z /\ (0 <= speed smp <= 40)%Z) /\
  (forall evs s,
      Forall ui_event evs ->
      run evs initial = Some s ->
      (40 <= frequency s <= 4000)%Z).
Proof.
  assert (0 <= throttle initial <= 1) as Hinit by (split; discriminate).
  split; [exact RangeFacts.newFreq_between |]. split.
  - intros evs s smp Hevs Hr.
    apply (RangeFacts.run_range evs initial s Hevs Hinit Hr).
  - intros evs s Hevs Hr.
    apply (RangeFacts.run_range evs initial s Hevs Hinit Hr).
    cbn. lia.
Qed.

Lemma dashboard_within_engine_range_witness :
  (baseFreq ferrari <= newFreq ferrari (1 # 2) <= maxFreq ferrari) /\
  ((40 <= rpm {| index := 0; rpm := 40; speed := 0 |} <= 4000)%Z /\
   (0 <= speed {| index := 0; rpm := 40; speed := 0 |} <= 40)%Z) /\
  (40 <= frequency started <= 4000)%Z.
Proof.
  destruct dashboard_within_engine_range as (Hf & Hs & Hr).
  split; [| split].
  - apply (Hf "ferrari"%string); [reflexivity | split; discriminate].
  - apply (Hs [Start] started); [repeat constructor | reflexivity |].
    left. reflexivity.
  - apply (Hr [Start]); [repeat constructor | reflexivity].
Defined.

(** ** The wheel *)

Module WheelFacts.

(** The clamp, case by case. *)
Lemma clamp_value x :
  (x < 0 /\ Math_min 1 (Math_max 0 x) == 0) \/
  (0 <= x <= 1 /\ Math_min 1 (Math_max 0 x) == x) \/
  (1 < x /\ Math_min 1 (Math_max 0 x) == 1).
Proof.
  unfold Math_min, Math_max.
  destruct (Q.max_spec 0 x) as [[H1 H2] | [H1 H2]];
    destruct (Q.min_spec 1 (Qmax 0 x)) as [[H3 H4] | [H3 H4]];
    rewrite H2 in H3.
  - right. right. split; [lra | now rewrite H4].
  - right. left. split; [lra | now rewrite H4, H2].
  - lra.
  - destruct (Qlt_le_dec x 0) as [Hneg | Hpos].
    + left. split; [lra | now rewrite H4, H2].
    + right. left. split; [lra | rewrite H4, H2; lra].
Qed.

Lemma wheel_up deltaY s :
  deltaY < 0 ->
  throttle (handleScroll deltaY s)
  = Math_min 1 (Math_max 0 (throttle s + (2 # 100))).
Proof.
  intros H. apply ThrottleFacts.lt_spec in H.
  unfold handleScroll. now rewrite H.
Qed.

Lemma wheel_down deltaY s :
  0 <= deltaY ->
  throttle (handleScroll deltaY s)
  = Math_min 1 (Math_max 0 (throttle s - (2 # 100))).
Proof.
  intros H. unfold handleScroll.
  destruct (lt deltaY 0) eqn:E; [| reflexivity].
  apply ThrottleFacts.lt_spec in E. lra.
Qed.

(** The dependencies after a wheel event differ exactly when the throttle
    does. *)
Lemma wheel_deps deltaY s :
  deps_changed s (handleScroll deltaY s) = false <->
  throttle (handleScroll deltaY s) == throttle s.
Proof.
  unfold deps_changed, same_number.
  change (isRunning (handleScroll deltaY s)) with (isRunning s).
  change (engineType (handleScroll deltaY s)) with (engineType s).
  rewrite Bool.eqb_reflx, String.eqb_refl. cbn [negb]. rewrite !orb_false_r.
  rewrite negb_false_iff, Qeq_bool_iff. split; intros H; now rewrite H.
Qed.

(** A wheel event leaves the throttle where it is exactly at the stop it
    scrolls towards. *)
Lemma wheel_unchanged s deltaY :
  0 <= throttle s <= 1 ->
  (deltaY < 0 ->
   (throttle (handleScroll deltaY s) == throttle s <-> throttle s == 1)) /\
  (0 <= deltaY ->
   (throttle (handleScroll deltaY s) == throttle s <-> throttle s == 0)).
Proof.
  intros Ht. split; intros Hd.
  - rewrite (wheel_up deltaY s Hd).
    destruct (clamp_value (throttle s + (2 # 100)))
      as [[H1 H2] | [[H1 H2] | [H1 H2]]]; rewrite H2; split; intros; lra.
  - rewrite (wheel_down deltaY s Hd).
    destruct (clamp_value (throttle s - (2 # 100)))
      as [[H1 H2] | [[H1 H2] | [H1 H2]]]; rewrite H2; split; intros; lra.
Qed.

End WheelFacts.

(** With the throttle in the unit interval, scrolling up never lowers it
    and leaves it where it is exactly when it is 1; scrolling down never
    raises it and leaves it where it is exactly when it is 0; away from the
    stops one tick is 0.02. *)
Theorem wheel_moves_until_the_stop :
  forall s deltaY,
    0 <= throttle s <= 1 ->
    (deltaY < 0 ->
     throttle s <= throttle (handleScroll deltaY s) /\
     (throttle (handleScroll deltaY s) == throttle s <-> throttle s == 1) /\
     (throttle s <= 98 # 100 ->
      throttle (handleScroll deltaY s) == throttle s + (2 # 100))) /\
    (0 <= deltaY ->
     throttle (handleScroll deltaY s) <= throttle s /\
     (throttle (handleScroll deltaY s) == throttle s <-> throttle s == 0) /\
     (2 # 100 <= throttle s ->
      throttle (handleScroll deltaY s) == throttle s - (2 # 100))).
Proof.
  intros s deltaY Ht. split; intros Hd.
  - rewrite (WheelFacts.wheel_up deltaY s Hd).
    destruct (WheelFacts.clamp_value (throttle s + (2 # 100)))
      as [[H1 H2] | [[H1 H2] | [H1 H2]]]; rewrite H2;
      repeat split; intros; lra.
  - rewrite (WheelFacts.wheel_down deltaY s Hd).
    destruct (WheelFacts.clamp_value (throttle s - (2 # 100)))
      as [[H1 H2] | [[H1 H2] | [H1 H2]]]; rewrite H2;
      repeat split; intros; lra.
Qed.

Lemma wheel_moves_until_the_stop_witness :
  throttle initial <= throttle (handleScroll (-1) initial) /\
  throttle (handleScroll (-1) initial) == throttle initial + (2 # 100) /\
  throttle (handleScroll 1 initial) <= throttle initial /\
  throttle (handleScroll 1 initial) == throttle initial.
Proof.
  assert (0 <= throttle initial <= 1) as Ht by (split; discriminate).
  destruct (wheel_moves_until_the_stop initial (-1) Ht) as [Hup _].
  destruct (wheel_moves_until_the_stop initial 1 Ht) as [_ Hdown].
  destruct (Hup eq_refl) as (H1 & _ & H2).
  destruct Hdown as (H3 & H4 & _); [discriminate |].
  split; [exact H1 |]. split; [apply H2; discriminate |].
  split; [exact H3 |]. apply H4. reflexivity.
Defined.

Module StopFacts.

(** Wheel events write the throttle and nothing else. *)
Lemma batch_only_throttle deltas : forall s,
  wheel_batch deltas s = setThrottle (throttle (wheel_batch deltas s)) s.
Proof.
  induction deltas as [| deltaY rest IH]; intros s.
  - now destruct s.
  - change (wheel_batch (deltaY :: rest) s)
      with (wheel_batch rest (handleScroll deltaY s)).
    rewrite (IH (handleScroll deltaY s)) at 1. reflexivity.
Qed.

(** At a stop, an event towards it leaves the throttle there. *)
Lemma stays_at_stop deltaY s :
  (throttle s == 1 /\ deltaY < 0) \/ (throttle s == 0 /\ 0 <= deltaY) ->
  throttle (handleScroll deltaY s) == throttle s.
Proof.
  intros [[Ht Hd] | [Ht Hd]].
  - assert (0 <= throttle s <= 1) as Hr by (rewrite Ht; split; discriminate).
    destruct (WheelFacts.wheel_unchanged s deltaY Hr) as [Hup _].
    now apply (Hup Hd).
  - assert (0 <= throttle s <= 1) as Hr by (rewrite Ht; split; discriminate).
    destruct (WheelFacts.wheel_unchanged s deltaY Hr) as [_ Hdown].
    now apply (Hdown Hd).
Qed.

Lemma batch_stays_at_top deltas : forall s,
  throttle s == 1 ->
  Forall (fun deltaY => deltaY < 0) deltas ->
  throttle (wheel_batch deltas s) == throttle s.
Proof.
  induction deltas as [| deltaY rest IH]; intros s Ht Hds; [reflexivity |].
  inversion Hds as [| ? ? Hd Hrest]; subst.
  pose proof (stays_at_stop deltaY s (or_introl (conj Ht Hd))) as H1.
  change (wheel_batch (deltaY :: rest) s)
    with (wheel_batch rest (handleScroll deltaY s)).
  rewrite (IH (handleScroll deltaY s)); [exact H1 | | exact Hrest].
  now rewrite H1.
Qed.

Lemma batch_stays_at_bottom deltas : forall s,
  throttle s == 0 ->
  Forall (fun deltaY => 0 <= deltaY) deltas ->
  throttle (wheel_batch deltas s) == throttle s.
Proof.
  induction deltas as [| deltaY rest IH]; intros s Ht Hds; [reflexivity |].
  inversion Hds as [| ? ? Hd Hrest]; subst.
  pose proof (stays_at_stop deltaY s (or_intror (conj Ht Hd))) as H1.
  change (wheel_batch (deltaY :: rest) s)
    with (wheel_batch rest (handleScroll deltaY s)).
  rewrite (IH (handleScroll deltaY s)); [exact H1 | | exact Hrest].
  now rewrite H1.
Qed.

(** A throttle that is numerically the old one changes no dependency. *)
Lemma same_throttle_same_deps t s :
  t == throttle s -> deps_changed s (setThrottle t s) = false.
Proof.
  intros H. unfold deps_changed, same_number.
  cbn [throttle isRunning engineType setThrottle].
  rewrite Bool.eqb_reflx, String.eqb_refl. cbn [negb]. rewrite !orb_false_r.
  apply negb_false_iff, Qeq_bool_iff. now symmetry.
Qed.

End StopFacts.

(** Scrolling against the stop does nothing.  With the throttle at 1, wheel
    events that scroll up, rendered one by one or any number of them in one
    render, leave the throttle at 1 and every other state variable and ref
    as it was, change no dependency of the effect, and so run no
    recomputation: no point is added to the chart and nothing is sent to
    the oscillator.  The same holds at 0 for events that scroll down. *)
Theorem scrolling_against_the_stop_adds_nothing :
  forall s deltas,
    (throttle s == 1 /\ Forall (fun deltaY => deltaY < 0) deltas) \/
    (throttle s == 0 /\ Forall (fun deltaY => 0 <= deltaY) deltas) ->
    throttle (wheel_batch deltas s) == throttle s /\
    wheel_batch deltas s = setThrottle (throttle (wheel_batch deltas s)) s /\
    dispatch_wheels deltas s = Done (wheel_batch deltas s) /\
    (forall deltaY,
        In deltaY deltas ->
        throttle (handleScroll deltaY s) == throttle s /\
        recomputation (Wheel deltaY) s = None /\
        dispatch (Wheel deltaY) s = Done (handleScroll deltaY s)).
Proof.
  intros s deltas Hstop.
  assert (throttle (wheel_batch deltas s) == throttle s) as Hsame.
  { destruct Hstop as [[Ht Hds] | [Ht Hds]].
    - now apply StopFacts.batch_stays_at_top.
    - now apply StopFacts.batch_stays_at_bottom. }
  split; [exact Hsame |].
  split; [apply StopFacts.batch_only_throttle |].
  split.
  - unfold dispatch_wheels.
    rewrite (StopFacts.batch_only_throttle deltas s) at 1.
    now rewrite (StopFacts.same_throttle_same_deps _ s Hsame).
  - intros deltaY Hin.
    assert (throttle (handleScroll deltaY s) == throttle s) as Hone.
    { apply StopFacts.stays_at_stop.
      destruct Hstop as [[Ht Hds] | [Ht Hds]];
        rewrite Forall_forall in Hds; [left | right]; auto. }
    split; [exact Hone |].
    apply WheelFacts.wheel_deps in Hone.
    unfold recomputation, dispatch, handle. rewrite Hone. auto.
Qed.

Lemma scrolling_against_the_stop_adds_nothing_witness :
  throttle (wheel_batch [1; 1] started) == throttle started /\
  dispatch_wheels [1; 1] started = Done (wheel_batch [1; 1] started) /\
  recomputation (Wheel 1) started = None /\
  dispatch (Wheel 1) started = Done (handleScroll 1 started).
Proof.
  destruct (scrolling_against_the_stop_adds_nothing started [1; 1])
    as (Hsame & _ & Hbatch & Hone).
  - right. split; [reflexivity |]. repeat constructor; discriminate.
  - destruct (Hone 1) as (_ & Hnone & Hdone); [left; reflexivity |].
    auto.
Defined.

(** ** The two speeds *)

Module SpeedFacts.

(** Rounding first and dividing afterwards is within one of dividing
    first. *)
Lemma round_then_divide f :
  (Math_round (f / 100) - 1
   <= Math_round (inject_Z (Math_round f) / 100)
   <= Math_round (f / 100) + 1)%Z.
Proof.
  destruct (RoundFacts.Math_round_near f) as [Hlo Hhi].
  assert (inject_Z (Math_round f) / 100 <= f / 100 + 1) as H1.
  { apply Qle_trans with ((f + (1 # 2)) / 100).
    - now apply RoundFacts.div100.
    - unfold Qdiv. change (/ 100) with (1 # 100). lra. }
  assert (f / 100 <= inject_Z (Math_round f) / 100 + 1) as H2.
  { apply Qle_trans with ((inject_Z (Math_round f) + (1 # 2)) / 100).
    - apply RoundFacts.div100. lra.
    - unfold Qdiv. change (/ 100) with (1 # 100). lra. }
  apply RoundFacts.Math_round_step in H1, H2. lia.
Qed.

End SpeedFacts.

(** After a recomputation the rpm readout is the rpm of the sample just
    added, but the speed readout is computed from the rounded rpm and the
    sample's speed from the frequency itself: the two are within 1 of each
    other and need not be equal.  With the porsche at throttle 0.26 the
    readout says 6 and the chart 5. *)
Theorem speed_readout_within_one_of_chart :
  (forall ev s s' smp,
      mounted (dispatch ev s) = Some s' ->
      recomputation ev s = Some smp ->
      rpm_readout (render s') = rpm smp /\
      (speed smp - 1 <= speed_readout (render s') <= speed smp + 1)%Z) /\
  option_map
    (fun s => (rpm_readout (render s), speed_readout (render s),
               map speed (chart (render s))))
    (run [Slider (26 # 100); Start] initial)
  = Some (550%Z, 6%Z, [5%Z]).
Proof.
  split; [| vm_compute; reflexivity].
  intros ev s s' smp Hm Hr.
  destruct (DispatchFacts.dispatch_inv _ _ _ Hm) as (s1 & _ & Hs').
  destruct Hs' as [[Hnone _] | (osc & p & _ & _ & _ & _ & Hsome & ->)];
    [congruence |].
  rewrite Hsome in Hr. injection Hr as <-.
  split; [reflexivity |].
  apply (SpeedFacts.round_then_divide (newFreq p (throttle s1))).
Qed.

Lemma speed_readout_within_one_of_chart_witness :
  rpm_readout (render started) = 40%Z /\
  (0 - 1 <= speed_readout (render started) <= 0 + 1)%Z.
Proof.
  destruct speed_readout_within_one_of_chart as [Hstep _].
  apply (Hstep Start initial started {| index := 0; rpm := 40; speed := 0 |});
    reflexivity.
Defined.

(** ** The page *)

Module PageFacts.

Lemma percent_range t :
  0 <= t <= 1 -> (0 <= toFixed0 (t * 100) <= 100)%Z.
Proof.
  intros Ht. unfold toFixed0.
  destruct (lt (t * 100) 0) eqn:E.
  - apply ThrottleFacts.lt_spec in E. lra.
  - assert (Qfloor (1 # 2) <= Qfloor (t * 100 + (1 # 2)))%Z as Hlo
      by (apply Qfloor_resp_le; lra).
    assert (Qfloor (t * 100 + (1 # 2)) <= Qfloor (201 # 2))%Z as Hhi
      by (apply Qfloor_resp_le; lra).
    split; [exact Hlo | exact Hhi].
Qed.

Lemma one_radio name :
  get enginePresets name <> None ->
  (String.eqb name "porsche", String.eqb name "ferrari",
   String.eqb name "mustang")
  = (true, false, false) /\ get enginePresets name = Some porsche \/
  (String.eqb name "porsche", String.eqb name "ferrari",
   String.eqb name "mustang")
  = (false, true, false) /\ get enginePresets name = Some ferrari \/
  (String.eqb name "porsche", String.eqb name "ferrari",
   String.eqb name "mustang")
  = (false, false, true) /\ get enginePresets name = Some mustang.
Proof.
  intros H. destruct (get enginePresets name) as [p |] eqn:Hp;
    [| contradiction].
  destruct (UiFacts.table_cases _ _ Hp) as [[-> ->] | [[-> ->] | [-> ->]]];
    auto.
Qed.

Lemma seq_from m : forall len (f : nat -> Z),
  map f (seq m len) = map (fun k => f (m + k)%nat) (seq 0 len).
Proof.
  intros len f. rewrite <- (Nat.add_0_r m) at 1.
  generalize 0%nat. induction len as [| len IH]; intros k; [reflexivity |].
  cbn [seq map]. f_equal.
  rewrite <- IH. now rewrite Nat.add_succ_r.
Qed.

End PageFacts.

(** What the page shows under its own events: the slider sits in the unit
    interval, the percentage printed beside it is between 0 and 100, the
    car is between 0 and 500 from the left, exactly one radio button is
    checked, the one of the engine in use, and the chart gets at most 20
    points. *)
Theorem page_shows_values_in_range :
  forall evs s,
    Forall ui_event evs ->
    run evs initial = Some s ->
    0 <= slider_value (render s) <= 1 /\
    (0 <= throttle_percent (render s) <= 100)%Z /\
    0 <= car_x (render s) <= 500 /\
    ((porsche_checked (render s), ferrari_checked (render s),
      mustang_checked (render s)) = (true, false, false) /\
     get enginePresets (engineType s) = Some porsche \/
     (porsche_checked (render s), ferrari_checked (render s),
      mustang_checked (render s)) = (false, true, false) /\
     get enginePresets (engineType s) = Some ferrari \/
     (porsche_checked (render s), ferrari_checked (render s),
      mustang_checked (render s)) = (false, false, true) /\
     get enginePresets (engineType s) = Some mustang) /\
    (List.length (chart (render s)) <= 20)%nat.
Proof.
  intros evs s Hevs Hr.
  destruct (UiFacts.run_ui evs initial Hevs) as (s0 & Hr0 & Hp & Ht);
    [discriminate | split; discriminate |].
  rewrite Hr in Hr0. injection Hr0 as <-.
  split; [exact Ht |]. split; [now apply PageFacts.percent_range |].
  split; [cbn [car_x render]; lra |].
  split; [now apply PageFacts.one_radio |].
  cbn [chart render].
  rewrite (@RunFacts.run_history evs initial s [] eq_refl Hr).
  rewrite SliceFacts.slice_last_length. lia.
Qed.

Lemma page_shows_values_in_range_witness :
  0 <= slider_value (render started) <= 1 /\
  (0 <= throttle_percent (render started) <= 100)%Z /\
  0 <= car_x (render started) <= 500.
Proof.
  destruct (page_shows_values_in_range [Start] started)
    as (H1 & H2 & H3 & _); [repeat constructor | reflexivity |].
  split; [exact H1 |]. split; [exact H2 | exact H3].
Defined.

(** The horizontal axis of the chart has no gap and no repetition: in
    every state a run reaches from the first render, the indices of the
    points are consecutive integers, the last being the counter less 1. *)
Theorem chart_indices_are_consecutive :
  forall evs s,
    run evs initial = Some s ->
    map index (data s) =
    map (fun k => (tick s - Z.of_nat (List.length (data s)) + Z.of_nat k)%Z)
        (seq 0 (List.length (data s))).
Proof.
  intros evs s Hr.
  pose proof (@RunFacts.run_history evs initial s [] eq_refl Hr) as Hd.
  cbn [app] in Hd.
  pose proof (@RunFacts.run_tick evs initial s Hr) as Ht.
  cbn [tick initial] in Ht.
  assert (List.length (data s)
          = Nat.min 20 (List.length (appended evs initial))) as Hlen
    by (rewrite Hd; apply SliceFacts.slice_last_length).
  rewrite Hd at 1. unfold slice_last.
  rewrite <- skipn_map, RunFacts.appended_indices, skipn_map, skipn_seq.
  rewrite PageFacts.seq_from. cbn [tick initial].
  replace (List.length (appended evs initial)
           - (List.length (appended evs initial) - 20))%nat
    with (List.length (data s)) by lia.
  apply map_ext_in. intros k _. lia.
Qed.

Lemma chart_indices_are_consecutive_witness :
  map index (data after_twenty_five) =
  map (fun k => (tick after_twenty_five
                 - Z.of_nat (List.length (data after_twenty_five))
                 + Z.of_nat k)%Z)
      (seq 0 (List.length (data after_twenty_five))).
Proof.
  apply (chart_indices_are_consecutive twenty_five).
  vm_compute. reflexivity.
Defined.

(** A recomputation puts the new sample at the end of the chart and keeps
    the points that were there, in their order, except that a chart of 20
    points loses its first one. *)
Theorem chart_drops_only_the_oldest :
  forall ev s s' smp,
    mounted (dispatch ev s) = Some s' ->
    recomputation ev s = Some smp ->
    ((List.length (data s) <= 19)%nat -> data s' = data s ++ [smp]) /\
    (List.length (data s) = 20%nat -> data s' = tl (data s) ++ [smp]).
Proof.
  intros ev s s' smp Hm Hr.
  pose proof (StepFacts.dispatch_telemetry _ _ Hm) as Hstep.
  rewrite Hr in Hstep. destruct Hstep as (Hd & _). rewrite Hd.
  split; intros Hlen.
  - now rewrite SliceFacts.slice_last_short.
  - unfold slice_last. rewrite Hlen.
    destruct (data s); [discriminate | reflexivity].
Qed.

Lemma chart_drops_only_the_oldest_witness :
  data (recompute mustang started_oscillator (setEngineType "mustang" started))
  = data started ++ [{| index := 1; rpm := 50; speed := 1 |}].
Proof.
  apply (chart_drops_only_the_oldest (Radio "mustang") started);
    [reflexivity | reflexivity | cbn; lia].
Defined.

(** A throttle and an engine chosen while the component is idle take
    effect with Start: the click itself recomputes, so the component is
    running with one new sample and a readout computed from the stored
    throttle and the selected engine, both of which it keeps. *)
Theorem start_takes_up_the_stored_throttle :
  forall s p,
    isRunning s = false ->
    get enginePresets (engineType s) = Some p ->
    exists s',
      dispatch Start s = Done s' /\
      isRunning s' = true /\
      throttle s' = throttle s /\ engineType s' = engineType s /\
      frequency s' = Math_round (newFreq p (throttle s)) /\
      recomputation Start s
      = Some {| index := tick s;
                rpm := Math_round (newFreq p (throttle s));
                speed := Math_round (newFreq p (throttle s) / 100) |} /\
      tick s' = (tick s + 1)%Z.
Proof.
  intros s p Hs Hp.
  rewrite (StartFacts.start_idle _ Hs Hp).
  eexists. split; [reflexivity |].
  repeat (split; [reflexivity |]). split; [| reflexivity].
  unfold recomputation, handle, startAudio. rewrite Hs, Hp. cbn [negb].
  unfold deps_changed. cbn [isRunning setIsRunning set_refs].
  rewrite Hs. cbn [Bool.eqb negb]. rewrite orb_true_r. cbn [orb andb].
  unfold guard.
  cbn [isRunning oscillatorRef gainRef engineType setIsRunning set_refs andb].
  now rewrite Hp.
Qed.

Lemma start_takes_up_the_stored_throttle_witness :
  exists s',
    dispatch Start (setThrottle (1 # 2) initial) = Done s' /\
    isRunning s' = true /\
    throttle s' = 1 # 2 /\ engineType s' = "porsche"%string /\
    frequency s' = Math_round (newFreq porsche (1 # 2)) /\
    recomputation Start (setThrottle (1 # 2) initial)
    = Some {| index := 0;
              rpm := Math_round (newFreq porsche (1 # 2));
              speed := Math_round (newFreq porsche (1 # 2) / 100) |} /\
    tick s' = (0 + 1)%Z.
Proof.
  apply (start_takes_up_the_stored_throttle (setThrottle (1 # 2) initial)
           porsche); reflexivity.
Defined.
